(** * Status-MQTT-Homebridge: the DSC Keybus / MQTT bridge sketch

    A shallow embedding of [examples/Status-MQTT-Homebridge/Status-MQTT-Homebridge.ino]
    and the properties of its three decision components:

    - the status translator (the publishing part of [loop]),
    - the command gate ([mqttCallback]),
    - the connection supervisor ([mqttHandle], [mqttConnect]).

    The Keybus library object [dsc] and the PubSubClient object [mqtt] are
    external collaborators.  Their public flags are fields of a record, their
    methods are the operations of two interfaces ([Keybus], [PubSubClient]),
    and every call that leaves the sketch (publish, subscribe, connect, panel
    write, serial print) is appended to a trace carried in the state. *)

From Stdlib Require Import ZArith Ascii String DecimalString DecimalNat Lia.
From stdpp Require Import base list strings.

(** * Part I: the sketch and the vocabulary of its properties *)

Local Open Scope Z_scope.
Local Open Scope nat_scope.

(** ** Configuration constants of the sketch *)

Definition mqttClientName : string := "dscKeybusInterface".
Definition mqttPartitionTopic : string := "dsc/Get/Partition".
Definition mqttZoneTopic : string := "dsc/Get/Zone".
Definition mqttFireTopic : string := "dsc/Get/Fire".
Definition mqttSubscribeTopic : string := "dsc/Set".
Definition mqttServer : string := "".

(** Modelled from the spec: [dscPartitions] is a macro of the Keybus library
    header, which is not part of the sources.  The sketch documents the topics
    [dsc/Get/Partition1 ... dsc/Get/Partition8] and the spec gives "1..N, N
    small, e.g. 8"; the per-partition arrays of the library have this many
    entries. *)
Definition dscPartitions : nat := 8.

(** ** C library helpers *)

(** [itoa(value, buf, 10)] for the non-negative values the sketch passes. *)
Definition itoa (value : nat) : string :=
  NilEmpty.string_of_uint (Nat.to_uint value).

Definition strlen (s : string) : nat := String.length s.

(** [strcpy(dst, src); strcat(dst, suffix)] at the level of string values.
    The sizes of the destination arrays are treated separately, in
    [Module TopicBuffer]. *)
Definition strcat (dst suffix : string) : string := dst +:+ suffix.

(** Arduino's [bitRead(value, bit)] is [((value) >> (bit)) & 0x01], used as a
    condition. *)
Definition bitRead (value : Z) (bit : nat) : bool :=
  negb (Z.land (Z.shiftr value (Z.of_nat bit)) 1 =? 0)%Z.

(** Arduino's [bitWrite(value, bit, 0)] is [(value) &= ~(1UL << (bit))],
    stored back into a [byte]. *)
Definition bitClear (value : Z) (bit : nat) : Z :=
  (Z.land value (Z.lnot (Z.shiftl 1 (Z.of_nat bit))) mod 256)%Z.

(** [for (byte i = 0; i < n; i++) body(i)] *)
Definition for_loop {S : Type} (n : nat) (body : nat -> S -> S) (s : S) : S :=
  foldl (fun acc i => body i acc) s (seq 0 n).

(** ** The Keybus interface object [dsc] *)

(** The public members the sketch reads and writes.  [priv] stands for the
    private state of the library (and the pending bus data it decodes). *)
Record dscKeybusInterface (P : Type) := mkDsc {
  statusChanged : bool;
  bufferOverflow : bool;
  accessCodePrompt : bool;
  writeReady : bool;
  partitionArmed : bool;
  exitDelay : bool;
  partitionsArmedChanged : list bool;
  partitionsArmed : list bool;
  partitionsArmedAway : list bool;
  partitionsArmedStay : list bool;
  partitionsNoEntryDelay : list bool;
  partitionsAlarmChanged : list bool;
  partitionsAlarm : list bool;
  partitionsFireChanged : list bool;
  partitionsFire : list bool;
  openZonesStatusChanged : bool;
  openZones : list Z;
  openZonesChanged : list Z;
  priv : P
}.

Arguments mkDsc {P}.
Arguments statusChanged {P}.
Arguments bufferOverflow {P}.
Arguments accessCodePrompt {P}.
Arguments writeReady {P}.
Arguments partitionArmed {P}.
Arguments exitDelay {P}.
Arguments partitionsArmedChanged {P}.
Arguments partitionsArmed {P}.
Arguments partitionsArmedAway {P}.
Arguments partitionsArmedStay {P}.
Arguments partitionsNoEntryDelay {P}.
Arguments partitionsAlarmChanged {P}.
Arguments partitionsAlarm {P}.
Arguments partitionsFireChanged {P}.
Arguments partitionsFire {P}.
Arguments openZonesStatusChanged {P}.
Arguments openZones {P}.
Arguments openZonesChanged {P}.
Arguments priv {P}.

Section DscAssignments.

Context {P : Type}.
Implicit Type d : dscKeybusInterface P.

(** [dsc.statusChanged = v] *)
Definition set_statusChanged (v : bool) d : dscKeybusInterface P :=
  mkDsc v (bufferOverflow d) (accessCodePrompt d) (writeReady d)
    (partitionArmed d) (exitDelay d)
    (partitionsArmedChanged d) (partitionsArmed d) (partitionsArmedAway d)
    (partitionsArmedStay d) (partitionsNoEntryDelay d)
    (partitionsAlarmChanged d) (partitionsAlarm d)
    (partitionsFireChanged d) (partitionsFire d)
    (openZonesStatusChanged d) (openZones d) (openZonesChanged d) (priv d).

(** [dsc.bufferOverflow = v] *)
Definition set_bufferOverflow (v : bool) d : dscKeybusInterface P :=
  mkDsc (statusChanged d) v (accessCodePrompt d) (writeReady d)
    (partitionArmed d) (exitDelay d)
    (partitionsArmedChanged d) (partitionsArmed d) (partitionsArmedAway d)
    (partitionsArmedStay d) (partitionsNoEntryDelay d)
    (partitionsAlarmChanged d) (partitionsAlarm d)
    (partitionsFireChanged d) (partitionsFire d)
    (openZonesStatusChanged d) (openZones d) (openZonesChanged d) (priv d).

(** [dsc.accessCodePrompt = v] *)
Definition set_accessCodePrompt (v : bool) d : dscKeybusInterface P :=
  mkDsc (statusChanged d) (bufferOverflow d) v (writeReady d)
    (partitionArmed d) (exitDelay d)
    (partitionsArmedChanged d) (partitionsArmed d) (partitionsArmedAway d)
    (partitionsArmedStay d) (partitionsNoEntryDelay d)
    (partitionsAlarmChanged d) (partitionsAlarm d)
    (partitionsFireChanged d) (partitionsFire d)
    (openZonesStatusChanged d) (openZones d) (openZonesChanged d) (priv d).

(** [dsc.partitionsArmedChanged[i] = v] *)
Definition set_partitionsArmedChanged (i : nat) (v : bool) d
  : dscKeybusInterface P :=
  mkDsc (statusChanged d) (bufferOverflow d) (accessCodePrompt d)
    (writeReady d) (partitionArmed d) (exitDelay d)
    (<[i := v]> (partitionsArmedChanged d)) (partitionsArmed d)
    (partitionsArmedAway d) (partitionsArmedStay d)
    (partitionsNoEntryDelay d)
    (partitionsAlarmChanged d) (partitionsAlarm d)
    (partitionsFireChanged d) (partitionsFire d)
    (openZonesStatusChanged d) (openZones d) (openZonesChanged d) (priv d).

(** [dsc.partitionsAlarmChanged[i] = v] *)
Definition set_partitionsAlarmChanged (i : nat) (v : bool) d
  : dscKeybusInterface P :=
  mkDsc (statusChanged d) (bufferOverflow d) (accessCodePrompt d)
    (writeReady d) (partitionArmed d) (exitDelay d)
    (partitionsArmedChanged d) (partitionsArmed d)
    (partitionsArmedAway d) (partitionsArmedStay d)
    (partitionsNoEntryDelay d)
    (<[i := v]> (partitionsAlarmChanged d)) (partitionsAlarm d)
    (partitionsFireChanged d) (partitionsFire d)
    (openZonesStatusChanged d) (openZones d) (openZonesChanged d) (priv d).

(** [dsc.partitionsFireChanged[i] = v] *)
Definition set_partitionsFireChanged (i : nat) (v : bool) d
  : dscKeybusInterface P :=
  mkDsc (statusChanged d) (bufferOverflow d) (accessCodePrompt d)
    (writeReady d) (partitionArmed d) (exitDelay d)
    (partitionsArmedChanged d) (partitionsArmed d)
    (partitionsArmedAway d) (partitionsArmedStay d)
    (partitionsNoEntryDelay d)
    (partitionsAlarmChanged d) (partitionsAlarm d)
    (<[i := v]> (partitionsFireChanged d)) (partitionsFire d)
    (openZonesStatusChanged d) (openZones d) (openZonesChanged d) (priv d).

(** [dsc.openZonesStatusChanged = v] *)
Definition set_openZonesStatusChanged (v : bool) d : dscKeybusInterface P :=
  mkDsc (statusChanged d) (bufferOverflow d) (accessCodePrompt d)
    (writeReady d) (partitionArmed d) (exitDelay d)
    (partitionsArmedChanged d) (partitionsArmed d)
    (partitionsArmedAway d) (partitionsArmedStay d)
    (partitionsNoEntryDelay d)
    (partitionsAlarmChanged d) (partitionsAlarm d)
    (partitionsFireChanged d) (partitionsFire d)
    v (openZones d) (openZonesChanged d) (priv d).

(** [dsc.openZonesChanged[g] = v] *)
Definition set_openZonesChanged (g : nat) (v : Z) d : dscKeybusInterface P :=
  mkDsc (statusChanged d) (bufferOverflow d) (accessCodePrompt d)
    (writeReady d) (partitionArmed d) (exitDelay d)
    (partitionsArmedChanged d) (partitionsArmed d)
    (partitionsArmedAway d) (partitionsArmedStay d)
    (partitionsNoEntryDelay d)
    (partitionsAlarmChanged d) (partitionsAlarm d)
    (partitionsFireChanged d) (partitionsFire d)
    (openZonesStatusChanged d) (openZones d)
    (<[g := v]> (openZonesChanged d)) (priv d).

End DscAssignments.

(** The two library methods the sketch calls.  [handlePanel] performs one
    decoding step and reports whether a complete command was read; [write] is
    overloaded for a single key and for a string of keys. *)
Class Keybus (P : Type) := {
  handlePanel : dscKeybusInterface P -> bool * dscKeybusInterface P;
  write_key : ascii -> dscKeybusInterface P -> dscKeybusInterface P;
  write_str : string -> dscKeybusInterface P -> dscKeybusInterface P
}.

(** ** The broker client object [mqtt] *)

(** [mqtt_loop] returns the payload pointers of the messages for which the
    client invokes the receive callback during this call.  A payload is a
    [byte*]: a map from offsets to bytes. *)
Class PubSubClient (M : Type) := {
  mqtt_connected : M -> bool;
  mqtt_connect : string -> M -> bool * M;
  mqtt_publish : string -> string -> bool -> M -> bool * M;
  mqtt_subscribe : string -> M -> bool * M;
  mqtt_loop : M -> list (nat -> ascii) * M
}.

(** ** Observable calls *)

Inductive Event : Type :=
| EvPublish (topic payload : string) (retained : bool) (ok : bool)
| EvSubscribe (topic : string)
| EvConnect (clientName : string) (ok : bool)
| EvWriteKey (key : ascii)
| EvWriteStr (keys : string)
| EvPrint (text : string).

(** An outbound message, as handed to [mqtt.publish]. *)
Record Msg : Type := mkMsg {
  msg_topic : string;
  msg_payload : string;
  msg_retained : bool
}.

(** The messages handed to [mqtt.publish], successful or not, in order. *)
Definition published (tr : list Event) : list Msg :=
  omap (fun e => match e with
                 | EvPublish t p r _ => Some (mkMsg t p r)
                 | _ => None
                 end) tr.

Definition is_write (e : Event) : bool :=
  match e with EvWriteKey _ | EvWriteStr _ => true | _ => false end.

Definition is_connect (e : Event) : bool :=
  match e with EvConnect _ _ => true | _ => false end.

(** The values handed to [dsc.write], in order. *)
Definition written (tr : list Event) : list Event := List.filter is_write tr.

(** The connection attempts, in order. *)
Definition attempts (tr : list Event) : list Event := List.filter is_connect tr.

(** The messages sent to one topic. *)
Definition on_topic (t : string) (ms : list Msg) : list Msg :=
  List.filter (fun m => String.eqb (msg_topic m) t) ms.

(** ** Array reads

    The library declares its per-partition arrays with [dscPartitions] entries
    and its zone arrays with 8 entries, and the sketch only indexes below
    these bounds.  A read outside a list, which no loop of the sketch
    performs on the library's arrays, yields the zero value. *)
Definition rd (a : list bool) (i : nat) : bool := default false (a !! i).
Definition rdZ (a : list Z) (i : nat) : Z := default 0%Z (a !! i).

(** ** Program state *)

Record World (P M : Type) := mkWorld {
  dsc : dscKeybusInterface P;
  mqtt : M;
  mqttPreviousTime : Z;
  trace : list Event
}.

Arguments mkWorld {P M}.
Arguments dsc {P M}.
Arguments mqtt {P M}.
Arguments mqttPreviousTime {P M}.
Arguments trace {P M}.

(** [unsigned long] is 32 bits wide on the ESP8266. *)
Definition ulong_max : Z := 2 ^ 32.

(** [millis()] at [clock] milliseconds after start-up. *)
Definition millis (clock : Z) : Z := (clock mod ulong_max)%Z.

(** Unsigned subtraction [a - b]. *)
Definition ulong_sub (a b : Z) : Z := ((a - b) mod ulong_max)%Z.

Section Sketch.

Context {P M : Type} {keybus : Keybus P} {client : PubSubClient M}.

(** [const char* accessCode]: the configured access code. *)
Variable accessCode : string.

Abbreviation World := (World P M).

Definition upd_dsc (f : dscKeybusInterface P -> dscKeybusInterface P)
    (w : World) : World :=
  mkWorld (f (dsc w)) (mqtt w) (mqttPreviousTime w) (trace w).

Definition set_mqtt (m : M) (w : World) : World :=
  mkWorld (dsc w) m (mqttPreviousTime w) (trace w).

Definition set_mqttPreviousTime (t : Z) (w : World) : World :=
  mkWorld (dsc w) (mqtt w) t (trace w).

Definition log (e : Event) (w : World) : World :=
  mkWorld (dsc w) (mqtt w) (mqttPreviousTime w) (trace w ++ [e]).

(** [mqtt.publish(topic, payload, retained)]; the sketch discards the
    result. *)
Definition publish (topic payload : string) (retained : bool)
    (w : World) : World :=
  let r := mqtt_publish topic payload retained (mqtt w) in
  log (EvPublish topic payload retained r.1) (set_mqtt r.2 w).

(** [mqtt.subscribe(topic)] *)
Definition subscribe (topic : string) (w : World) : World :=
  let r := mqtt_subscribe topic (mqtt w) in
  log (EvSubscribe topic) (set_mqtt r.2 w).

(** [dsc.write(key)] and [dsc.write(keys)] *)
Definition dsc_write_key (key : ascii) (w : World) : World :=
  log (EvWriteKey key) (upd_dsc (write_key key) w).

Definition dsc_write_str (keys : string) (w : World) : World :=
  log (EvWriteStr keys) (upd_dsc (write_str keys) w).

Definition Serial_print (text : string) (w : World) : World :=
  log (EvPrint text) w.

(** *** Status translator: the publishing part of [loop] *)

(** Armed status of one partition (lines 189-206). *)
Definition publishArmed (partitionIndex : nat) (w : World) : World :=
  if rd (partitionsArmedChanged (dsc w)) partitionIndex then
    let w := upd_dsc (set_partitionsArmedChanged partitionIndex false) w in
    let partitionPublishTopic :=
      strcat mqttPartitionTopic (itoa (partitionIndex + 1)) in
    if rd (partitionsArmed (dsc w)) partitionIndex then
      if rd (partitionsArmedAway (dsc w)) partitionIndex
         && rd (partitionsNoEntryDelay (dsc w)) partitionIndex
      then publish partitionPublishTopic "NA" true w
      else if rd (partitionsArmedAway (dsc w)) partitionIndex
      then publish partitionPublishTopic "AA" true w
      else if rd (partitionsArmedStay (dsc w)) partitionIndex
              && rd (partitionsNoEntryDelay (dsc w)) partitionIndex
      then publish partitionPublishTopic "NA" true w
      else if rd (partitionsArmedStay (dsc w)) partitionIndex
      then publish partitionPublishTopic "SA" true w
      else w
    else publish partitionPublishTopic "D" true w
  else w.

(** Alarm status of one partition (lines 208-221). *)
Definition publishAlarm (partitionIndex : nat) (w : World) : World :=
  if rd (partitionsAlarmChanged (dsc w)) partitionIndex then
    let w := upd_dsc (set_partitionsAlarmChanged partitionIndex false) w in
    if rd (partitionsAlarm (dsc w)) partitionIndex then
      let partitionPublishTopic :=
        strcat mqttPartitionTopic (itoa (partitionIndex + 1)) in
      publish partitionPublishTopic "T" true w
    else w
  else w.

(** Fire status of one partition (lines 223-235).  The two-argument
    [publish] of the client does not retain. *)
Definition publishFire (partitionIndex : nat) (w : World) : World :=
  if rd (partitionsFireChanged (dsc w)) partitionIndex then
    let w := upd_dsc (set_partitionsFireChanged partitionIndex false) w in
    let firePublishTopic :=
      strcat mqttFireTopic (itoa (partitionIndex + 1)) in
    if rd (partitionsFire (dsc w)) partitionIndex
    then publish firePublishTopic "1" false w
    else publish firePublishTopic "0" false w
  else w.

(** Body of the partition loop (lines 187-236). *)
Definition publishPartition (partitionIndex : nat) (w : World) : World :=
  publishFire partitionIndex
    (publishAlarm partitionIndex (publishArmed partitionIndex w)).

Definition publishPartitions (w : World) : World :=
  for_loop dscPartitions publishPartition w.

(** Body of the inner zone loop (lines 248-262). *)
Definition publishZone (zoneGroup zoneBit : nat) (w : World) : World :=
  if bitRead (rdZ (openZonesChanged (dsc w)) zoneGroup) zoneBit then
    let w :=
      upd_dsc (fun d =>
        set_openZonesChanged zoneGroup
          (bitClear (rdZ (openZonesChanged d) zoneGroup) zoneBit) d) w in
    let zonePublishTopic :=
      strcat mqttZoneTopic (itoa (zoneBit + 1 + zoneGroup * 8)) in
    if bitRead (rdZ (openZones (dsc w)) zoneGroup) zoneBit
    then publish zonePublishTopic "1" true w
    else publish zonePublishTopic "0" true w
  else w.

(** The zone scan (lines 244-265). *)
Definition publishZones (w : World) : World :=
  if openZonesStatusChanged (dsc w) then
    let w := upd_dsc (set_openZonesStatusChanged false) w in
    for_loop 8 (fun zoneGroup =>
      for_loop 8 (fun zoneBit => publishZone zoneGroup zoneBit)) w
  else w.

(** Lines 187-265: partitions first, then zones. *)
Definition statusTranslator (w : World) : World :=
  publishZones (publishPartitions w).

(** The body of the [if] in [loop] (lines 173-267). *)
Definition processStatus (w : World) : World :=
  let w := upd_dsc (set_statusChanged false) w in
  let w := if bufferOverflow (dsc w)
           then Serial_print "Keybus buffer overflow" w else w in
  let w := upd_dsc (set_bufferOverflow false) w in
  let w := if accessCodePrompt (dsc w) && writeReady (dsc w)
           then dsc_write_str accessCode
                  (upd_dsc (set_accessCodePrompt false) w)
           else w in
  let w := statusTranslator w in
  subscribe mqttSubscribeTopic w.

(** [if (dsc.handlePanel() && dsc.statusChanged) { ... }] (line 172) *)
Definition pollPanel (w : World) : World :=
  let r := handlePanel (dsc w) in
  let w := upd_dsc (fun _ => r.2) w in
  if r.1 && statusChanged (dsc w) then processStatus w else w.

(** *** Command gate: [mqttCallback] *)

(** [while (!dsc.writeReady) dsc.handlePanel();] with a bound on the number
    of iterations; [None] when the bound is reached. *)
Fixpoint waitWriteReady (fuel : nat) (w : World) : option World :=
  if negb (writeReady (dsc w)) then
    match fuel with
    | O => None
    | S fuel' =>
        waitWriteReady fuel' (upd_dsc (fun d => (handlePanel d).2) w)
    end
  else Some w.

Definition mqttCallback (fuel : nat) (payload : nat -> ascii)
    (w : World) : option World :=
  if Ascii.eqb (payload 0) "S"
     && negb (partitionArmed (dsc w)) && negb (exitDelay (dsc w))
  then dsc_write_key "s" <$> waitWriteReady fuel w
  else if Ascii.eqb (payload 0) "A"
          && negb (partitionArmed (dsc w)) && negb (exitDelay (dsc w))
  then dsc_write_key "w" <$> waitWriteReady fuel w
  else if Ascii.eqb (payload 0) "N"
          && negb (partitionArmed (dsc w)) && negb (exitDelay (dsc w))
  then dsc_write_key "n" <$> waitWriteReady fuel w
  else if Ascii.eqb (payload 0) "D"
          && (partitionArmed (dsc w) || exitDelay (dsc w))
  then dsc_write_str accessCode <$> waitWriteReady fuel w
  else Some w.

(** *** Connection supervisor: [mqttConnect], [mqttHandle] *)

Definition mqttConnect (w : World) : bool * World :=
  let r := mqtt_connect mqttClientName (mqtt w) in
  let w := log (EvConnect mqttClientName r.1) (set_mqtt r.2 w) in
  let w :=
    if r.1
    then subscribe mqttSubscribeTopic
           (Serial_print mqttServer (Serial_print "MQTT connected: " w))
    else Serial_print mqttServer
           (Serial_print "MQTT connection failed: " w) in
  (mqtt_connected (mqtt w), w).

(** [mqtt.loop()]: the client hands each received message to
    [mqttCallback]. *)
Definition mqtt_loop_callbacks (fuel : nat) (w : World) : option World :=
  let r := mqtt_loop (mqtt w) in
  foldl (fun acc payload => acc ≫= mqttCallback fuel payload)
    (Some (set_mqtt r.2 w)) r.1.

Definition mqttHandle (fuel : nat) (clock : Z) (w : World) : option World :=
  if negb (mqtt_connected (mqtt w)) then
    let mqttCurrentTime := millis clock in
    if (5000 <? ulong_sub mqttCurrentTime (mqttPreviousTime w))%Z then
      let w := set_mqttPreviousTime mqttCurrentTime w in
      let r := mqttConnect w in
      if r.1
      then Some (set_mqttPreviousTime 0
                   (Serial_print
                      "MQTT disconnected, successfully reconnected." r.2))
      else Some (Serial_print
                   "MQTT disconnected, failed to reconnect." r.2)
    else Some w
  else mqtt_loop_callbacks fuel w.

(** [loop()], run when [millis()] would return [millis clock]. *)
Definition loop (fuel : nat) (clock : Z) (w : World) : option World :=
  pollPanel <$> mqttHandle fuel clock w.

(** The MQTT part of [setup()] (lines 156-159). *)
Definition setup_mqtt (clock : Z) (w : World) : World :=
  let r := mqttConnect w in
  if r.1 then set_mqttPreviousTime (millis clock) r.2
  else set_mqttPreviousTime 0 r.2.

End Sketch.

Arguments publish : simpl never.
Arguments subscribe : simpl never.
Arguments dsc_write_key : simpl never.
Arguments dsc_write_str : simpl never.
Arguments Serial_print : simpl never.

(** ** The encoding table of the status translator *)

Definition partitionTopic (partitionIndex : nat) : string :=
  strcat mqttPartitionTopic (itoa (partitionIndex + 1)).

Definition fireTopic (partitionIndex : nat) : string :=
  strcat mqttFireTopic (itoa (partitionIndex + 1)).

Definition zoneTopic (zone : nat) : string :=
  strcat mqttZoneTopic (itoa zone).

(** The armed payload by the priority order
    (armedAway && noEntryDelay), armedAway, (armedStay && noEntryDelay),
    armedStay; [None] when no row matches. *)
Definition armedPayload (away stay noEntryDelay : bool) : option string :=
  if away && noEntryDelay then Some "NA"
  else if away then Some "AA"
  else if stay && noEntryDelay then Some "NA"
  else if stay then Some "SA"
  else None.

Section Encoding.

Context {P : Type}.
Implicit Type d : dscKeybusInterface P.

Definition armedMsgs d (i : nat) : list Msg :=
  if rd (partitionsArmedChanged d) i then
    if rd (partitionsArmed d) i then
      match armedPayload (rd (partitionsArmedAway d) i)
              (rd (partitionsArmedStay d) i)
              (rd (partitionsNoEntryDelay d) i) with
      | Some payload => [mkMsg (partitionTopic i) payload true]
      | None => []
      end
    else [mkMsg (partitionTopic i) "D" true]
  else [].

Definition alarmMsgs d (i : nat) : list Msg :=
  if rd (partitionsAlarmChanged d) i && rd (partitionsAlarm d) i
  then [mkMsg (partitionTopic i) "T" true]
  else [].

Definition fireMsgs d (i : nat) : list Msg :=
  if rd (partitionsFireChanged d) i
  then [mkMsg (fireTopic i)
          (if rd (partitionsFire d) i then "1" else "0") false]
  else [].

Definition partitionMsgs d (i : nat) : list Msg :=
  armedMsgs d i ++ alarmMsgs d i ++ fireMsgs d i.

(** Zone [z] (1-based) lives in group [(z-1)/8], bit [(z-1) mod 8]. *)
Definition zoneChanged d (z : nat) : bool :=
  bitRead (rdZ (openZonesChanged d) ((z - 1) / 8)) ((z - 1) mod 8).

Definition zoneOpen d (z : nat) : bool :=
  bitRead (rdZ (openZones d) ((z - 1) / 8)) ((z - 1) mod 8).

Definition zoneMsgs d (z : nat) : list Msg :=
  if zoneChanged d z
  then [mkMsg (zoneTopic z) (if zoneOpen d z then "1" else "0") true]
  else [].

(** The change flags of partition [i] after the translator has seen it. *)
Definition clearPartition (i : nat) d : dscKeybusInterface P :=
  set_partitionsFireChanged i false
    (set_partitionsAlarmChanged i false
       (set_partitionsArmedChanged i false d)).

(** Zone bit [(g, b)] as the inner loop sees it. *)
Definition zoneMsgsAt d (g b : nat) : list Msg :=
  if bitRead (rdZ (openZonesChanged d) g) b
  then [mkMsg (zoneTopic (b + 1 + g * 8))
          (if bitRead (rdZ (openZones d) g) b then "1" else "0") true]
  else [].

(** The change bit of zone bit [(g, b)] after the scan has seen it. *)
Definition clearZoneBit (g b : nat) d : dscKeybusInterface P :=
  if bitRead (rdZ (openZonesChanged d) g) b
  then set_openZonesChanged g (bitClear (rdZ (openZonesChanged d) g) b) d
  else d.

Definition clearPartitions (idx : list nat) d : dscKeybusInterface P :=
  foldl (fun acc i => clearPartition i acc) d idx.

(** *** The flags after the zone scan *)

(** The (group, bit) pairs in the order the nested loops visit them. *)
Definition zoneBits : list (nat * nat) := list_prod (seq 0 8) (seq 0 8).

Definition clearZoneBits (gbs : list (nat * nat)) d : dscKeybusInterface P :=
  foldl (fun acc gb => clearZoneBit gb.1 gb.2 acc) d gbs.

(** *** One run of the translator, as a function of the panel state *)

Definition translatorMsgs d : list Msg :=
  flat_map (partitionMsgs d) (seq 0 dscPartitions)
  ++ (if openZonesStatusChanged d
      then flat_map (zoneMsgs d) (seq 1 64) else []).

(** The flags after one run, for any lists of indices the two loops
    range over. *)
Definition flagsAfter (idx : list nat) (gbs : list (nat * nat)) d
  : dscKeybusInterface P :=
  let d1 := clearPartitions idx d in
  if openZonesStatusChanged d1
  then clearZoneBits gbs (set_openZonesStatusChanged false d1)
  else d1.

Definition translatorFlags d : dscKeybusInterface P :=
  flagsAfter (seq 0 dscPartitions) zoneBits d.

End Encoding.

(** ** Messages handed to the client by one step *)

Definition published_by {P M : Type} (f : World P M -> World P M)
    (w : World P M) : list Msg :=
  drop (length (published (trace w))) (published (trace (f w))).

(** The messages with a given payload. *)
Definition with_payload (payload : string) (ms : list Msg) : list Msg :=
  List.filter (fun m => String.eqb (msg_payload m) payload) ms.

(** ** Concrete collaborators and panel states used in examples *)

Module Bench.

(** A Keybus library that decodes nothing and never becomes ready. *)
Definition stalled_keybus : Keybus unit :=
  {| handlePanel d := (false, d);
     write_key _ d := d;
     write_str _ d := d |}.

(** A Keybus library whose private state counts the decoding steps left
    until the write slot is free. *)
Definition set_ready (n : nat) (d : dscKeybusInterface nat)
  : dscKeybusInterface nat :=
  mkDsc (statusChanged d) (bufferOverflow d) (accessCodePrompt d)
    (Nat.eqb n 0) (partitionArmed d) (exitDelay d)
    (partitionsArmedChanged d) (partitionsArmed d)
    (partitionsArmedAway d) (partitionsArmedStay d)
    (partitionsNoEntryDelay d)
    (partitionsAlarmChanged d) (partitionsAlarm d)
    (partitionsFireChanged d) (partitionsFire d)
    (openZonesStatusChanged d) (openZones d) (openZonesChanged d) n.

Definition countdown_keybus : Keybus nat :=
  {| handlePanel d := (true, set_ready (Nat.pred (priv d)) d);
     write_key _ d := d;
     write_str _ d := d |}.

(** A broker that cannot be reached: every call fails. *)
Definition offline_client : PubSubClient unit :=
  {| mqtt_connected _ := false;
     mqtt_connect _ m := (false, m);
     mqtt_publish _ _ _ m := (false, m);
     mqtt_subscribe _ m := (false, m);
     mqtt_loop m := ([], m) |}.

(** A broker that accepts everything and delivers nothing. *)
Definition online_client : PubSubClient unit :=
  {| mqtt_connected _ := true;
     mqtt_connect _ m := (true, m);
     mqtt_publish _ _ _ m := (true, m);
     mqtt_subscribe _ m := (true, m);
     mqtt_loop m := ([], m) |}.

Definition none8 : list bool := replicate 8 false.
Definition first8 : list bool := true :: replicate 7 false.
Definition zeros8 : list Z := replicate 8 0%Z.

(** A panel state given by its per-partition and zone members; the scalar
    flags are clear. *)
Definition panel {P : Type}
    (armedChanged armed away stay noEntryDelay : list bool)
    (alarmChanged alarm fireChanged fire : list bool)
    (zonesStatusChanged : bool) (zones zonesChanged : list Z) (p : P)
  : dscKeybusInterface P :=
  mkDsc false false false false false false
    armedChanged armed away stay noEntryDelay
    alarmChanged alarm fireChanged fire
    zonesStatusChanged zones zonesChanged p.

Definition world {P : Type} (d : dscKeybusInterface P) : World P unit :=
  mkWorld d tt 0%Z [].

(** Nothing armed, nothing changed, write slot busy. *)
Definition idle : World unit unit :=
  world (panel none8 none8 none8 none8 none8
               none8 none8 none8 none8 false zeros8 zeros8 tt).

(** The same with two bus steps to go until the write slot is free. *)
Definition idle_ready_in_2 : World nat unit :=
  world (panel none8 none8 none8 none8 none8
               none8 none8 none8 none8 false zeros8 zeros8 2).

(** The panel asks for the access code; the next bus step reports a
    changed status and frees the write slot. *)
Definition prompting : World nat unit :=
  world (set_statusChanged true
           (set_accessCodePrompt true
              (panel none8 none8 none8 none8 none8
                     none8 none8 none8 none8 false zeros8 zeros8 1))).

(** Partition 1 armed, neither away nor stay. *)
Definition armed_without_mode : World unit unit :=
  world (panel first8 first8 none8 none8 none8
               none8 none8 none8 none8 false zeros8 zeros8 tt).

(** Partition 1 armed away while its alarm trips. *)
Definition away_and_alarm : World unit unit :=
  world (panel first8 first8 first8 none8 none8
               first8 first8 none8 none8 false zeros8 zeros8 tt).

(** Partition 1 armed stay with no entry delay; fire restored. *)
Definition night_and_fire : World unit unit :=
  world (panel first8 first8 none8 first8 first8
               none8 none8 first8 none8 false zeros8 zeros8 tt).

(** Zone 1 open and marked changed, but the zones status flag is clear. *)
Definition zone1_ungated : World unit unit :=
  world (panel none8 none8 none8 none8 none8
               none8 none8 none8 none8 false
               (1%Z :: replicate 7 0%Z) (1%Z :: replicate 7 0%Z) tt).

(** Zones 1 (open) and 10 (closed) marked changed, status flag set. *)
Definition zones_1_10 : World unit unit :=
  world (panel none8 none8 none8 none8 none8
               none8 none8 none8 none8 true
               (1%Z :: replicate 7 0%Z)
               (1%Z :: 2%Z :: replicate 6 0%Z) tt).

End Bench.

(** ** Claims as stated, for the ones the sketch does not satisfy *)

Section Stated.

Context {P M : Type} {client : PubSubClient M}.
Implicit Type w : World P M.

(** C2 as stated: a set armed-change flag always yields exactly one
    retained message on the partition topic in that run, its payload taken
    from the priority order when armed and "D" when not. *)
Definition C2_as_stated w (p : nat) : Prop :=
  rd (partitionsArmedChanged (dsc w)) p = true ->
  rd (partitionsArmedChanged (dsc (statusTranslator w))) p = false /\
  exists payload : string,
    on_topic (partitionTopic p) (published_by statusTranslator w)
    = [mkMsg (partitionTopic p) payload true] /\
    (if rd (partitionsArmed (dsc w)) p
     then armedPayload (rd (partitionsArmedAway (dsc w)) p)
            (rd (partitionsArmedStay (dsc w)) p)
            (rd (partitionsNoEntryDelay (dsc w)) p) = Some payload
     else payload = "D").

(** C3 as stated: a zone whose change bit is set gets exactly one retained
    message and its change bit is cleared; other zones get none. *)
Definition C3_as_stated w (z : nat) : Prop :=
  on_topic (zoneTopic z) (published_by statusTranslator w)
  = (if zoneChanged (dsc w) z
     then [mkMsg (zoneTopic z)
             (if zoneOpen (dsc w) z then "1" else "0") true]
     else [])
  /\ zoneChanged (dsc (statusTranslator w)) z = false.

End Stated.

(** ** The access code prompt *)

Section AccessCodePrompt.

Context {P M : Type} {keybus : Keybus P} {client : PubSubClient M}.
Variable accessCode : string.
Implicit Type w : World P M.
Implicit Type d : dscKeybusInterface P.

(** The state in which the translator starts when the prompt is answered,
    and when it is not. *)
Definition answered d : dscKeybusInterface P :=
  write_str accessCode
    (set_accessCodePrompt false
       (set_bufferOverflow false (set_statusChanged false d))).

Definition unanswered d : dscKeybusInterface P :=
  set_bufferOverflow false (set_statusChanged false d).

End AccessCodePrompt.

(** ** Command gate *)

(** The gate in the words of the spec: STAY, AWAY and NIGHT are accepted only
    when the partition is neither armed nor in exit delay and are answered
    with the keypad keys [s], [w], [n]; DISARM is accepted only when armed or
    in exit delay and is answered with the access code; any other first byte
    is ignored.  [None] stands for "no write". *)
Definition commandGate (accessCode : string) (first : ascii)
    (armed exitDelay : bool) : option Event :=
  if Ascii.eqb first "S"
  then if negb armed && negb exitDelay then Some (EvWriteKey "s") else None
  else if Ascii.eqb first "A"
  then if negb armed && negb exitDelay then Some (EvWriteKey "w") else None
  else if Ascii.eqb first "N"
  then if negb armed && negb exitDelay then Some (EvWriteKey "n") else None
  else if Ascii.eqb first "D"
  then if armed || exitDelay then Some (EvWriteStr accessCode) else None
  else None.

Section CommandGate.

Context {P M : Type} {keybus : Keybus P} {client : PubSubClient M}.
Variable accessCode : string.
Implicit Type w : World P M.

(** C1 as stated: an accepted command leads to its write. *)
Definition C1_as_stated (payload : nat -> ascii) w : Prop :=
  forall e : Event,
    commandGate accessCode (payload 0)
      (partitionArmed (dsc w)) (exitDelay (dsc w)) = Some e ->
    exists (fuel : nat) (w' : World P M),
      mqttCallback accessCode fuel payload w = Some w'
      /\ written (trace w') = written (trace w) ++ [e].

End CommandGate.

(** ** Connection supervisor *)

Section Supervisor.

Context {P M : Type} {keybus : Keybus P} {client : PubSubClient M}.
Variable accessCode : string.
Implicit Type w : World P M.

(** Milliseconds between the stored timestamp and [millis()], as the
    sketch computes them. *)
Definition elapsed (clock : Z) w : Z :=
  ulong_sub (millis clock) (mqttPreviousTime w).

(** C8 as stated: while disconnected, an attempt is made as soon as the
    elapsed time is at least 5000 ms. *)
Definition C8_as_stated (clock : Z) w : Prop :=
  mqtt_connected (mqtt w) = false ->
  (5000 <= elapsed clock w)%Z ->
  exists fuel w',
    mqttHandle accessCode fuel clock w = Some w'
    /\ length (attempts (trace w')) = S (length (attempts (trace w))).

End Supervisor.

(** ** Sizes of the topic buffers *)

Module TopicBuffer.

(** A [char] array of [size] bytes that holds a NUL-terminated string.
    The checked versions of [strcpy], [strcat] and [itoa] return [None]
    when the call would write past the end of the destination. *)
Definition strcpy_into (size : nat) (src : string) : option string :=
  if strlen src + 1 <=? size then Some src else None.

Definition strcat_into (size : nat) (dst src : string) : option string :=
  if strlen dst + strlen src + 1 <=? size then Some (dst +:+ src) else None.

(** [itoa(value, buf, 10)] into [char buf[size]]. *)
Definition itoa_into (size : nat) (value : nat) : option string :=
  strcpy_into size (itoa value).

(** Lines 193-197 and 213-217:
    [char partitionPublishTopic[strlen(mqttPartitionTopic) + 1];]
    [char partition[2];] *)
Definition partitionPublishTopic (partitionIndex : nat) : option string :=
  let size := strlen mqttPartitionTopic + 1 in
  dst ← strcpy_into size mqttPartitionTopic;
  partition ← itoa_into 2 (partitionIndex + 1);
  strcat_into size dst partition.

(** Lines 227-231:
    [char firePublishTopic[strlen(mqttFireTopic) + 1]; char partition[2];] *)
Definition firePublishTopic (partitionIndex : nat) : option string :=
  let size := strlen mqttFireTopic + 1 in
  dst ← strcpy_into size mqttFireTopic;
  partition ← itoa_into 2 (partitionIndex + 1);
  strcat_into size dst partition.

(** Lines 252-256:
    [char zonePublishTopic[strlen(mqttZoneTopic) + 2]; char zone[3];] *)
Definition zonePublishTopic (zoneGroup zoneBit : nat) : option string :=
  let size := strlen mqttZoneTopic + 2 in
  dst ← strcpy_into size mqttZoneTopic;
  zone ← itoa_into 3 (zoneBit + 1 + zoneGroup * 8);
  strcat_into size dst zone.

(** The bound of C10: [strlen(base) + digits(index) + 1 <= size]. *)
Definition fits (base : string) (index size : nat) : bool :=
  strlen base + strlen (itoa index) + 1 <=? size.

End TopicBuffer.

(** ** Vocabulary of the further properties *)

Definition is_publish (e : Event) : bool :=
  match e with EvPublish _ _ _ _ => true | _ => false end.

(** The calls other than [mqtt.publish], in order. *)
Definition other_calls (tr : list Event) : list Event :=
  List.filter (fun e => negb (is_publish e)) tr.

(** The topics handed to [mqtt.subscribe], in order. *)
Definition subscriptions (tr : list Event) : list string :=
  omap (fun e => match e with EvSubscribe t => Some t | _ => None end) tr.

(** The rows of the encoding table, as a check on one message: a partition
    topic carries "NA", "AA", "SA", "D" or "T", retained; a fire topic
    carries "1" or "0", not retained; a zone topic carries "1" or "0",
    retained. *)
Definition in_table (m : Msg) : bool :=
  existsb (fun p => String.eqb (msg_topic m) (partitionTopic p))
      (seq 0 dscPartitions)
    && existsb (String.eqb (msg_payload m)) ["NA"; "AA"; "SA"; "D"; "T"]
    && msg_retained m
  || existsb (fun p => String.eqb (msg_topic m) (fireTopic p))
       (seq 0 dscPartitions)
     && existsb (String.eqb (msg_payload m)) ["1"; "0"]
     && negb (msg_retained m)
  || existsb (fun z => String.eqb (msg_topic m) (zoneTopic z)) (seq 1 64)
     && existsb (String.eqb (msg_payload m)) ["1"; "0"]
     && msg_retained m.

(** The panel object after [n] calls of [dsc.handlePanel()]. *)
Definition after_steps {P : Type} {keybus : Keybus P} (n : nat)
    (d : dscKeybusInterface P) : dscKeybusInterface P :=
  Nat.iter n (fun d' => (handlePanel d').2) d.

(** Further collaborators and states used in examples. *)
Module Cases.

(** A broker that becomes connected at the first [connect]. *)
Definition reachable_client : PubSubClient bool :=
  {| mqtt_connected m := m;
     mqtt_connect _ _ := (true, true);
     mqtt_publish _ _ _ m := (m, m);
     mqtt_subscribe _ m := (m, m);
     mqtt_loop m := ([], m) |}.

(** A connected broker whose state is the queue of received payloads; one
    call of [loop] delivers them all. *)
Definition delivering_client : PubSubClient (list (nat -> ascii)) :=
  {| mqtt_connected _ := true;
     mqtt_connect _ m := (true, m);
     mqtt_publish _ _ _ m := (true, m);
     mqtt_subscribe _ m := (true, m);
     mqtt_loop m := (m, []) |}.

(** The payloads "S" and "x", padded with NUL. *)
Definition payload_S : nat -> ascii :=
  fun i => if Nat.eqb i 0 then "S"%char else "000"%char.

Definition payload_x : nat -> ascii :=
  fun i => if Nat.eqb i 0 then "x"%char else "000"%char.

(** Disarmed panel, write slot free after two bus steps, two messages
    queued in the client. *)
Definition two_queued : World nat (list (nat -> ascii)) :=
  mkWorld (dsc Bench.idle_ready_in_2) [payload_S; payload_x] 0%Z [].

(** A bus step that reports nothing new, with change flags pending. *)
Definition pending_unreported : World unit unit := Bench.away_and_alarm.

(** All zone change bits set, status flag set. *)
Definition all_zones_changed : World unit unit :=
  Bench.world (Bench.panel Bench.none8 Bench.none8 Bench.none8 Bench.none8
                 Bench.none8 Bench.none8 Bench.none8 Bench.none8 Bench.none8
                 true Bench.zeros8 (replicate 8 255%Z) tt).

End Cases.

(** * Part II: lemmas and theorems *)

(** ** Basic facts: helpers, arrays, bits, traces *)

Example itoa_examples : itoa 1 = "1" /\ itoa 8 = "8" /\ itoa 64 = "64".
Proof. repeat split; reflexivity. Qed.

Lemma itoa_inj (n m : nat) : itoa n = itoa m -> n = m.
Proof.
  unfold itoa. intros E.
  apply Unsigned.to_uint_inj.
  assert (S : Some (Nat.to_uint n) = Some (Nat.to_uint m))
    by (rewrite <- !NilEmpty.usu; now rewrite E).
  now inversion S.
Qed.

Lemma strcat_inj (base a b : string) : strcat base a = strcat base b -> a = b.
Proof. unfold strcat. apply (inj (String.app base)). Qed.

Lemma rd_insert_false (a : list bool) (i j : nat) :
  rd (<[i := false]> a) j = if decide (i = j) then false else rd a j.
Proof.
  unfold rd. destruct (decide (i = j)) as [->|Hne].
  - destruct (decide (j < length a)) as [Hlt|Hge].
    + now rewrite list_lookup_insert_eq by lia.
    + rewrite list_insert_ge by lia. now rewrite lookup_ge_None_2 by lia.
  - now rewrite list_lookup_insert_ne.
Qed.

Lemma insert_false_id (a : list bool) (i : nat) :
  rd a i = false -> <[i := false]> a = a.
Proof.
  unfold rd. destruct (a !! i) as [b|] eqn:E; simpl.
  - intros ->. now apply list_insert_id.
  - intros _. apply list_insert_ge. now apply lookup_ge_None.
Qed.

Lemma rdZ_insert (a : list Z) (g g' : nat) (v : Z) :
  g < length a ->
  rdZ (<[g := v]> a) g' = if decide (g = g') then v else rdZ a g'.
Proof.
  intros Hlt. unfold rdZ. destruct (decide (g = g')) as [->|Hne].
  - now rewrite list_lookup_insert_eq by lia.
  - now rewrite list_lookup_insert_ne.
Qed.

Lemma rdZ_out_of_range (a : list Z) (g : nat) : length a <= g -> rdZ a g = 0%Z.
Proof. intros Hge. unfold rdZ. now rewrite lookup_ge_None_2. Qed.

Lemma bitRead_testbit (v : Z) (b : nat) :
  bitRead v b = Z.testbit v (Z.of_nat b).
Proof.
  unfold bitRead.
  change 1%Z with (Z.ones 1). rewrite Z.land_ones by lia.
  change (2 ^ 1)%Z with 2%Z.
  rewrite <- Z.bit0_mod, Z.shiftr_spec, Z.add_0_l by lia.
  now destruct (Z.testbit v (Z.of_nat b)).
Qed.

Lemma bitRead_bitClear (v : Z) (b b' : nat) :
  b' < 8 ->
  bitRead (bitClear v b) b' = bitRead v b' && negb (Nat.eqb b b').
Proof.
  intros Hb. rewrite !bitRead_testbit. unfold bitClear.
  change 256%Z with (2 ^ 8)%Z.
  rewrite Z.mod_pow2_bits_low by lia.
  rewrite Z.land_spec, Z.lnot_spec, Z.shiftl_spec by lia.
  f_equal. f_equal.
  destruct (Nat.eqb_spec b b') as [->|Hne].
  - now rewrite Z.sub_diag.
  - destruct (decide (b < b')) as [Hlt|Hge].
    + replace (Z.of_nat b' - Z.of_nat b)%Z
        with (Z.succ (Z.of_nat (b' - b - 1))) by lia.
      now rewrite (Z.bits_above_log2 1 _) by (simpl; lia).
    + now rewrite Z.testbit_neg_r by lia.
Qed.

Lemma bitRead_zero (b : nat) : bitRead 0 b = false.
Proof. rewrite bitRead_testbit. apply Z.bits_0. Qed.

Lemma flat_map_ext_elem {A B : Type} (f g : A -> list B) (l : list A) :
  (forall x, x ∈ l -> f x = g x) -> flat_map f l = flat_map g l.
Proof.
  induction l as [|a l IH]; intros Hfg; simpl; [done|].
  rewrite Hfg by apply list_elem_of_here.
  rewrite IH; [done|]. intros x Hx. apply Hfg. now apply list_elem_of_further.
Qed.

Lemma foldl_frame {A S X : Type} (step : S -> X -> S) (f : S -> A) :
  (forall s x, f (step s x) = f s) ->
  forall l s, f (foldl step s l) = f s.
Proof.
  intros Hstep l. induction l as [|x l IH]; intros s; simpl; [done|].
  now rewrite IH.
Qed.

Lemma foldl_list_prod {S A B : Type} (f : A -> B -> S -> S)
    (l1 : list A) (l2 : list B) (s : S) :
  foldl (fun acc a => foldl (fun acc' b => f a b acc') acc l2) s l1
  = foldl (fun acc ab => f ab.1 ab.2 acc) s (list_prod l1 l2).
Proof.
  revert s. induction l1 as [|a l1 IH]; intros s; simpl; [done|].
  rewrite foldl_app, <- IH.
  assert (E : forall s', foldl (fun acc' b => f a b acc') s' l2
              = foldl (fun acc ab => f ab.1 ab.2 acc) s'
                  (map (fun y => (a, y)) l2)).
  { clear. induction l2 as [|b l2 IH2]; intros s'; simpl; [done|]. apply IH2. }
  now rewrite E.
Qed.

Lemma published_app (t1 t2 : list Event) :
  published (t1 ++ t2) = published t1 ++ published t2.
Proof. unfold published. apply omap_app. Qed.

Lemma written_app (t1 t2 : list Event) :
  written (t1 ++ t2) = written t1 ++ written t2.
Proof. unfold written. apply List.filter_app. Qed.

Lemma attempts_app (t1 t2 : list Event) :
  attempts (t1 ++ t2) = attempts t1 ++ attempts t2.
Proof. unfold attempts. apply List.filter_app. Qed.

Lemma on_topic_app (t : string) (m1 m2 : list Msg) :
  on_topic t (m1 ++ m2) = on_topic t m1 ++ on_topic t m2.
Proof. unfold on_topic. apply List.filter_app. Qed.

(** ** The encoding table: flags and messages *)

Section EncodingFacts.

Context {P : Type}.
Implicit Type d : dscKeybusInterface P.

Lemma set_partitionsArmedChanged_id d i :
  rd (partitionsArmedChanged d) i = false ->
  set_partitionsArmedChanged i false d = d.
Proof.
  intros E. destruct d. unfold set_partitionsArmedChanged. simpl in *.
  now rewrite insert_false_id.
Qed.

Lemma set_partitionsAlarmChanged_id d i :
  rd (partitionsAlarmChanged d) i = false ->
  set_partitionsAlarmChanged i false d = d.
Proof.
  intros E. destruct d. unfold set_partitionsAlarmChanged. simpl in *.
  now rewrite insert_false_id.
Qed.

Lemma set_partitionsFireChanged_id d i :
  rd (partitionsFireChanged d) i = false ->
  set_partitionsFireChanged i false d = d.
Proof.
  intros E. destruct d. unfold set_partitionsFireChanged. simpl in *.
  now rewrite insert_false_id.
Qed.

Lemma partitionMsgs_clear_other d (i j : nat) :
  i <> j -> partitionMsgs (clearPartition i d) j = partitionMsgs d j.
Proof.
  intros Hne. unfold partitionMsgs, armedMsgs, alarmMsgs, fireMsgs. simpl.
  rewrite !rd_insert_false. now rewrite !decide_False by done.
Qed.

Lemma clearZoneBit_changed d (g b g' b' : nat) :
  b' < 8 ->
  bitRead (rdZ (openZonesChanged (clearZoneBit g b d)) g') b'
  = bitRead (rdZ (openZonesChanged d) g') b'
    && negb (Nat.eqb g g' && Nat.eqb b b').
Proof.
  intros Hb'. unfold clearZoneBit.
  destruct (bitRead (rdZ (openZonesChanged d) g) b) eqn:E.
  - assert (Hlen : g < length (openZonesChanged d)).
    { destruct (decide (g < length (openZonesChanged d))); [done|].
      rewrite rdZ_out_of_range, bitRead_zero in E by lia. done. }
    simpl. rewrite rdZ_insert by done.
    destruct (decide (g = g')) as [->|Hne].
    + rewrite Nat.eqb_refl. simpl. now apply bitRead_bitClear.
    + apply Nat.eqb_neq in Hne. rewrite Hne. simpl. now rewrite andb_true_r.
  - destruct (Nat.eqb_spec g g') as [->|]; simpl; [|now rewrite andb_true_r].
    destruct (Nat.eqb_spec b b') as [->|]; simpl; [|now rewrite andb_true_r].
    now rewrite E.
Qed.

Lemma clearZoneBit_open d (g b : nat) :
  openZones (clearZoneBit g b d) = openZones d.
Proof. unfold clearZoneBit. now case_match. Qed.

Lemma zoneMsgsAt_clear_other d (g b g' b' : nat) :
  b' < 8 -> (g, b) <> (g', b') ->
  zoneMsgsAt (clearZoneBit g b d) g' b' = zoneMsgsAt d g' b'.
Proof.
  intros Hb' Hne. unfold zoneMsgsAt.
  rewrite clearZoneBit_changed, clearZoneBit_open by done.
  destruct (Nat.eqb_spec g g') as [->|]; simpl; [|now rewrite andb_true_r].
  destruct (Nat.eqb_spec b b') as [->|]; simpl; [|now rewrite andb_true_r].
  congruence.
Qed.

(** *** The flags after the partition loop *)

Local Ltac cleared_cases :=
  match goal with
  | |- context [decide (?j ∈ ?i :: ?idx)] =>
      destruct (decide (j ∈ idx)) as [Hin|Hnin];
      [ rewrite decide_True by (now apply list_elem_of_further); done
      | destruct (decide (i = j)) as [->|Hne];
        [ now rewrite decide_True by apply list_elem_of_here
        | rewrite decide_False;
          [done | intros [->|?]%elem_of_cons; done] ] ]
  end.

Lemma clearPartitions_armedChanged idx d (j : nat) :
  rd (partitionsArmedChanged (clearPartitions idx d)) j
  = if decide (j ∈ idx) then false else rd (partitionsArmedChanged d) j.
Proof.
  unfold clearPartitions. revert d.
  induction idx as [|i idx IH]; intros d; simpl; [done|].
  rewrite IH. simpl. rewrite rd_insert_false. cleared_cases.
Qed.

Lemma clearPartitions_alarmChanged idx d (j : nat) :
  rd (partitionsAlarmChanged (clearPartitions idx d)) j
  = if decide (j ∈ idx) then false else rd (partitionsAlarmChanged d) j.
Proof.
  unfold clearPartitions. revert d.
  induction idx as [|i idx IH]; intros d; simpl; [done|].
  rewrite IH. simpl. rewrite rd_insert_false. cleared_cases.
Qed.

Lemma clearPartitions_fireChanged idx d (j : nat) :
  rd (partitionsFireChanged (clearPartitions idx d)) j
  = if decide (j ∈ idx) then false else rd (partitionsFireChanged d) j.
Proof.
  unfold clearPartitions. revert d.
  induction idx as [|i idx IH]; intros d; simpl; [done|].
  rewrite IH. simpl. rewrite rd_insert_false. cleared_cases.
Qed.

(** Any member the partition loop does not assign keeps its value. *)
Lemma clearPartitions_frame {A : Type} (f : dscKeybusInterface P -> A) idx d :
  (forall i d', f (clearPartition i d') = f d') ->
  f (clearPartitions idx d) = f d.
Proof.
  intros Hf. unfold clearPartitions.
  apply (foldl_frame (fun acc i => clearPartition i acc) f). intros; apply Hf.
Qed.

Lemma clearZoneBits_changed gbs d (g' b' : nat) :
  b' < 8 ->
  bitRead (rdZ (openZonesChanged (clearZoneBits gbs d)) g') b'
  = bitRead (rdZ (openZonesChanged d) g') b'
    && negb (bool_decide ((g', b') ∈ gbs)).
Proof.
  intros Hb'. unfold clearZoneBits. revert d.
  induction gbs as [|[g b] gbs IH]; intros d; simpl.
  - now rewrite andb_true_r.
  - rewrite IH, clearZoneBit_changed by done.
    rewrite <- andb_assoc. f_equal.
    destruct (Nat.eqb_spec g g') as [->|Hg];
      [destruct (Nat.eqb_spec b b') as [->|Hb]|]; simpl.
    + symmetry. apply negb_false_iff, bool_decide_eq_true.
      apply list_elem_of_here.
    + f_equal. apply bool_decide_ext. rewrite elem_of_cons.
      split; [now right | intros [Heq|]; [inversion Heq; congruence|done]].
    + f_equal. apply bool_decide_ext. rewrite elem_of_cons.
      split; [now right | intros [Heq|]; [inversion Heq; congruence|done]].
Qed.

Lemma clearZoneBits_frame {A : Type} (f : dscKeybusInterface P -> A) gbs d :
  (forall g b d', f (clearZoneBit g b d') = f d') ->
  f (clearZoneBits gbs d) = f d.
Proof.
  intros Hf. unfold clearZoneBits.
  apply (foldl_frame (fun acc gb => clearZoneBit gb.1 gb.2 acc) f).
  intros; apply Hf.
Qed.

Lemma zoneMsgsAt_zoneMsgs d (g b : nat) :
  b < 8 -> zoneMsgsAt d g b = zoneMsgs d (b + 1 + g * 8).
Proof.
  intros Hb. unfold zoneMsgsAt, zoneMsgs, zoneChanged, zoneOpen.
  replace (b + 1 + g * 8 - 1) with (b + g * 8) by lia.
  rewrite Nat.div_add, Nat.Div0.mod_add by lia.
  now rewrite Nat.div_small, Nat.mod_small by lia.
Qed.

Lemma zoneBits_zones d :
  flat_map (fun gb => zoneMsgsAt d gb.1 gb.2) zoneBits
  = flat_map (zoneMsgs d) (seq 1 64).
Proof.
  change (seq 1 64) with (map (fun gb => gb.2 + 1 + gb.1 * 8) zoneBits).
  assert (Hall : Forall (fun gb => gb.2 < 8) zoneBits)
    by (apply Forall_forall; intros [g b] Hin%list_elem_of_In;
        apply in_prod_iff in Hin as [_ Hb%in_seq]; simpl; lia).
  induction Hall as [|[g b] gbs Hb _ IH]; simpl; [done|].
  now rewrite IH, zoneMsgsAt_zoneMsgs.
Qed.

Lemma zoneBits_NoDup : NoDup zoneBits.
Proof. apply (bool_decide_unpack _). vm_compute. exact I. Qed.

Lemma zoneBits_elem (z : nat) :
  1 <= z <= 64 -> ((z - 1) / 8, (z - 1) mod 8) ∈ zoneBits.
Proof.
  intros Hz. apply list_elem_of_In, in_prod_iff. rewrite !in_seq.
  assert ((z - 1) / 8 < 8) by (apply Nat.Div0.div_lt_upper_bound; lia).
  assert ((z - 1) mod 8 < 8) by (apply Nat.mod_upper_bound; lia).
  lia.
Qed.

End EncodingFacts.

(** ** Symbolic execution of the translator *)

Section TranslatorFacts.

Context {P M : Type} {keybus : Keybus P} {client : PubSubClient M}.
Implicit Type w : World P M.

Lemma dsc_publish t p r w : dsc (publish t p r w) = dsc w.
Proof. reflexivity. Qed.

Lemma published_publish t p r w :
  published (trace (publish t p r w)) = published (trace w) ++ [mkMsg t p r].
Proof. unfold publish, log. simpl. now rewrite published_app. Qed.

Lemma written_publish t p r w :
  written (trace (publish t p r w)) = written (trace w).
Proof.
  unfold publish, log. simpl. rewrite written_app. simpl. apply app_nil_r.
Qed.

Lemma time_publish t p r w :
  mqttPreviousTime (publish t p r w) = mqttPreviousTime w.
Proof. reflexivity. Qed.

Lemma publishArmed_dsc i w :
  dsc (publishArmed i w) = set_partitionsArmedChanged i false (dsc w).
Proof.
  unfold publishArmed.
  destruct (rd (partitionsArmedChanged (dsc w)) i) eqn:E.
  - cbn [dsc upd_dsc]. repeat case_match; now rewrite ?dsc_publish.
  - now rewrite set_partitionsArmedChanged_id.
Qed.

Lemma publishArmed_published i w :
  published (trace (publishArmed i w))
  = published (trace w) ++ armedMsgs (dsc w) i.
Proof.
  unfold publishArmed, armedMsgs, armedPayload.
  destruct (rd (partitionsArmedChanged (dsc w)) i); cbn [dsc upd_dsc];
    [|now rewrite app_nil_r].
  simpl.
  destruct (rd (partitionsArmed (dsc w)) i);
    [|now rewrite published_publish].
  destruct (rd (partitionsArmedAway (dsc w)) i),
           (rd (partitionsArmedStay (dsc w)) i),
           (rd (partitionsNoEntryDelay (dsc w)) i); simpl;
    rewrite ?published_app, ?app_nil_r; reflexivity.
Qed.
Lemma publishArmed_written i w :
  written (trace (publishArmed i w)) = written (trace w).
Proof.
  unfold publishArmed. repeat case_match; simpl;
    rewrite ?written_app; simpl; now rewrite ?app_nil_r.
Qed.

Lemma publishAlarm_dsc i w :
  dsc (publishAlarm i w) = set_partitionsAlarmChanged i false (dsc w).
Proof.
  unfold publishAlarm.
  destruct (rd (partitionsAlarmChanged (dsc w)) i) eqn:E.
  - cbn [dsc upd_dsc]. now case_match.
  - now rewrite set_partitionsAlarmChanged_id.
Qed.

Lemma publishAlarm_published i w :
  published (trace (publishAlarm i w))
  = published (trace w) ++ alarmMsgs (dsc w) i.
Proof.
  unfold publishAlarm, alarmMsgs.
  destruct (rd (partitionsAlarmChanged (dsc w)) i),
           (rd (partitionsAlarm (dsc w)) i) eqn:E; simpl;
    rewrite ?E; simpl; rewrite ?published_app, ?app_nil_r; reflexivity.
Qed.

Lemma publishAlarm_written i w :
  written (trace (publishAlarm i w)) = written (trace w).
Proof.
  unfold publishAlarm. repeat case_match; simpl;
    rewrite ?written_app; simpl; now rewrite ?app_nil_r.
Qed.

Lemma publishFire_dsc i w :
  dsc (publishFire i w) = set_partitionsFireChanged i false (dsc w).
Proof.
  unfold publishFire.
  destruct (rd (partitionsFireChanged (dsc w)) i) eqn:E.
  - cbn [dsc upd_dsc]. now case_match.
  - now rewrite set_partitionsFireChanged_id.
Qed.

Lemma publishFire_published i w :
  published (trace (publishFire i w))
  = published (trace w) ++ fireMsgs (dsc w) i.
Proof.
  unfold publishFire, fireMsgs.
  destruct (rd (partitionsFireChanged (dsc w)) i),
           (rd (partitionsFire (dsc w)) i) eqn:E; simpl;
    rewrite ?E; simpl; rewrite ?published_app, ?app_nil_r; reflexivity.
Qed.

Lemma publishFire_written i w :
  written (trace (publishFire i w)) = written (trace w).
Proof.
  unfold publishFire. repeat case_match; simpl;
    rewrite ?written_app; simpl; now rewrite ?app_nil_r.
Qed.

Lemma publishPartition_dsc i w :
  dsc (publishPartition i w) = clearPartition i (dsc w).
Proof.
  unfold publishPartition, clearPartition.
  now rewrite publishFire_dsc, publishAlarm_dsc, publishArmed_dsc.
Qed.

Lemma publishPartition_published i w :
  published (trace (publishPartition i w))
  = published (trace w) ++ partitionMsgs (dsc w) i.
Proof.
  unfold publishPartition, partitionMsgs.
  rewrite publishFire_published, publishAlarm_published,
    publishArmed_published, publishAlarm_dsc, publishArmed_dsc.
  now rewrite <- !app_assoc.
Qed.

Lemma publishPartition_written i w :
  written (trace (publishPartition i w)) = written (trace w).
Proof.
  unfold publishPartition.
  now rewrite publishFire_written, publishAlarm_written,
    publishArmed_written.
Qed.

(** The partition loop over any duplicate-free list of indices. *)
Lemma partitions_fold_dsc (idx : list nat) w :
  dsc (foldl (fun acc i => publishPartition i acc) w idx)
  = foldl (fun d i => clearPartition i d) (dsc w) idx.
Proof.
  revert w. induction idx as [|i idx IH]; intros w; simpl; [done|].
  now rewrite IH, publishPartition_dsc.
Qed.

Lemma partitions_fold_published (idx : list nat) w :
  NoDup idx ->
  published (trace (foldl (fun acc i => publishPartition i acc) w idx))
  = published (trace w) ++ flat_map (partitionMsgs (dsc w)) idx.
Proof.
  revert w. induction idx as [|i idx IH]; intros w Hnd; simpl.
  - now rewrite app_nil_r.
  - apply NoDup_cons in Hnd as [Hi Hnd].
    rewrite IH, publishPartition_published, publishPartition_dsc by done.
    rewrite <- app_assoc. do 2 f_equal.
    apply flat_map_ext_elem. intros j Hj.
    apply partitionMsgs_clear_other. now intros ->.
Qed.

Lemma partitions_fold_written (idx : list nat) w :
  written (trace (foldl (fun acc i => publishPartition i acc) w idx))
  = written (trace w).
Proof.
  revert w. induction idx as [|i idx IH]; intros w; simpl; [done|].
  now rewrite IH, publishPartition_written.
Qed.
Lemma publishZone_dsc g b w :
  dsc (publishZone g b w) = clearZoneBit g b (dsc w).
Proof.
  unfold publishZone, clearZoneBit.
  destruct (bitRead (rdZ (openZonesChanged (dsc w)) g) b); [|done].
  cbn [dsc upd_dsc]. now case_match.
Qed.

Lemma publishZone_published g b w :
  published (trace (publishZone g b w))
  = published (trace w) ++ zoneMsgsAt (dsc w) g b.
Proof.
  unfold publishZone, zoneMsgsAt.
  destruct (bitRead (rdZ (openZonesChanged (dsc w)) g) b);
    [|now rewrite app_nil_r].
  cbn [dsc upd_dsc openZones set_openZonesChanged].
  destruct (bitRead (rdZ (openZones (dsc w)) g) b);
    now rewrite published_publish.
Qed.

Lemma publishZone_written g b w :
  written (trace (publishZone g b w)) = written (trace w).
Proof.
  unfold publishZone. repeat case_match; simpl;
    rewrite ?written_app; simpl; now rewrite ?app_nil_r.
Qed.

(** The zone scan over any duplicate-free list of (group, bit) pairs. *)
Lemma zones_fold_dsc (gbs : list (nat * nat)) w :
  dsc (foldl (fun acc gb => publishZone gb.1 gb.2 acc) w gbs)
  = clearZoneBits gbs (dsc w).
Proof.
  unfold clearZoneBits. revert w.
  induction gbs as [|gb gbs IH]; intros w; simpl; [done|].
  now rewrite IH, publishZone_dsc.
Qed.

Lemma zones_fold_published (gbs : list (nat * nat)) w :
  NoDup gbs -> Forall (fun gb => gb.2 < 8) gbs ->
  published (trace (foldl (fun acc gb => publishZone gb.1 gb.2 acc) w gbs))
  = published (trace w)
    ++ flat_map (fun gb => zoneMsgsAt (dsc w) gb.1 gb.2) gbs.
Proof.
  revert w. induction gbs as [|[g b] gbs IH]; intros w Hnd Hall; simpl.
  - now rewrite app_nil_r.
  - apply NoDup_cons in Hnd as [Hi Hnd].
    apply Forall_cons in Hall as [Hb Hall].
    rewrite IH, publishZone_published, publishZone_dsc by done.
    rewrite <- app_assoc. do 2 f_equal.
    apply flat_map_ext_elem. intros [g' b'] Hin.
    apply zoneMsgsAt_clear_other.
    + rewrite Forall_forall in Hall. now apply (Hall (g', b')).
    + intros [= -> ->]. now apply Hi.
Qed.

Lemma zones_fold_written (gbs : list (nat * nat)) w :
  written (trace (foldl (fun acc gb => publishZone gb.1 gb.2 acc) w gbs))
  = written (trace w).
Proof.
  revert w. induction gbs as [|gb gbs IH]; intros w; simpl; [done|].
  now rewrite IH, publishZone_written.
Qed.

Lemma zone_loops_flat w :
  for_loop 8 (fun zoneGroup =>
    for_loop 8 (fun zoneBit => publishZone zoneGroup zoneBit)) w
  = foldl (fun acc gb => publishZone gb.1 gb.2 acc) w zoneBits.
Proof. unfold for_loop, zoneBits. apply foldl_list_prod. Qed.

Lemma zoneBits_low : Forall (fun gb : nat * nat => gb.2 < 8) zoneBits.
Proof.
  apply Forall_forall. intros [g b] Hin%list_elem_of_In.
  apply in_prod_iff in Hin as [_ Hb%in_seq]. simpl. lia.
Qed.

Lemma publishZones_dsc w :
  dsc (publishZones w)
  = if openZonesStatusChanged (dsc w)
    then clearZoneBits zoneBits (set_openZonesStatusChanged false (dsc w))
    else dsc w.
Proof.
  unfold publishZones. case_match; [|done].
  now rewrite zone_loops_flat, zones_fold_dsc.
Qed.

Lemma publishZones_published w :
  published (trace (publishZones w))
  = published (trace w)
    ++ (if openZonesStatusChanged (dsc w)
        then flat_map (zoneMsgs (dsc w)) (seq 1 64) else []).
Proof.
  unfold publishZones. case_match; [|now rewrite app_nil_r].
  rewrite <- (zoneBits_zones (dsc w)).
  rewrite zone_loops_flat, zones_fold_published
    by (apply zoneBits_NoDup || apply zoneBits_low).
  reflexivity.
Qed.

Lemma publishZones_written w :
  written (trace (publishZones w)) = written (trace w).
Proof.
  unfold publishZones. case_match; [|done].
  now rewrite zone_loops_flat, zones_fold_written.
Qed.

(** One run of the translator: the flags it leaves and the messages it
    hands to the client depend on the panel state only. *)
Lemma statusTranslator_dsc w :
  dsc (statusTranslator w) = translatorFlags (dsc w).
Proof.
  unfold statusTranslator, translatorFlags, flagsAfter, publishPartitions,
    for_loop, clearPartitions.
  rewrite publishZones_dsc, partitions_fold_dsc. reflexivity.
Qed.

Lemma statusTranslator_published w :
  published (trace (statusTranslator w))
  = published (trace w) ++ translatorMsgs (dsc w).
Proof.
  unfold statusTranslator, translatorMsgs, publishPartitions, for_loop.
  rewrite publishZones_published, partitions_fold_published,
    partitions_fold_dsc by apply NoDup_seq.
  fold (clearPartitions (seq 0 dscPartitions) (dsc w)).
  rewrite (clearPartitions_frame openZonesStatusChanged) by done.
  assert (E : flat_map (zoneMsgs (clearPartitions (seq 0 dscPartitions) (dsc w)))
                (seq 1 64)
              = flat_map (zoneMsgs (dsc w)) (seq 1 64)).
  { apply flat_map_ext_elem. intros z _.
    unfold zoneMsgs, zoneChanged, zoneOpen.
    rewrite (clearPartitions_frame openZonesChanged) by done.
    now rewrite (clearPartitions_frame openZones) by done. }
  rewrite E. now rewrite <- app_assoc.
Qed.

Lemma statusTranslator_written w :
  written (trace (statusTranslator w)) = written (trace w).
Proof.
  unfold statusTranslator, publishPartitions, for_loop.
  now rewrite publishZones_written, partitions_fold_written.
Qed.

End TranslatorFacts.

(** ** Topics are pairwise distinct *)

Lemma partitionTopic_eqb (i p : nat) :
  String.eqb (partitionTopic i) (partitionTopic p) = Nat.eqb i p.
Proof.
  destruct (Nat.eqb_spec i p) as [->|Hne].
  - apply String.eqb_refl.
  - apply String.eqb_neq. intros E%strcat_inj%itoa_inj. lia.
Qed.

Lemma fireTopic_eqb (i p : nat) :
  String.eqb (fireTopic i) (fireTopic p) = Nat.eqb i p.
Proof.
  destruct (Nat.eqb_spec i p) as [->|Hne].
  - apply String.eqb_refl.
  - apply String.eqb_neq. intros E%strcat_inj%itoa_inj. lia.
Qed.

Lemma zoneTopic_eqb (z z' : nat) :
  String.eqb (zoneTopic z) (zoneTopic z') = Nat.eqb z z'.
Proof.
  destruct (Nat.eqb_spec z z') as [->|Hne].
  - apply String.eqb_refl.
  - apply String.eqb_neq. now intros E%strcat_inj%itoa_inj.
Qed.

Lemma partition_fire_topic (i p : nat) :
  String.eqb (partitionTopic i) (fireTopic p) = false.
Proof. reflexivity. Qed.

Lemma fire_partition_topic (i p : nat) :
  String.eqb (fireTopic i) (partitionTopic p) = false.
Proof. reflexivity. Qed.

Lemma zone_partition_topic (z p : nat) :
  String.eqb (zoneTopic z) (partitionTopic p) = false.
Proof. reflexivity. Qed.

Lemma zone_fire_topic (z p : nat) :
  String.eqb (zoneTopic z) (fireTopic p) = false.
Proof. reflexivity. Qed.

Lemma partition_zone_topic (p z : nat) :
  String.eqb (partitionTopic p) (zoneTopic z) = false.
Proof. reflexivity. Qed.

Lemma fire_zone_topic (p z : nat) :
  String.eqb (fireTopic p) (zoneTopic z) = false.
Proof. reflexivity. Qed.

(** ** The messages of one run, topic by topic *)

Lemma on_topic_flat_map {A : Type} (t : string) (f : A -> list Msg)
    (l : list A) :
  on_topic t (flat_map f l) = flat_map (fun x => on_topic t (f x)) l.
Proof.
  induction l as [|a l IH]; simpl; [done|].
  now rewrite on_topic_app, IH.
Qed.

Lemma flat_map_nil {A B : Type} (f : A -> list B) (l : list A) :
  (forall x, x ∈ l -> f x = []) -> flat_map f l = [].
Proof.
  intros Hf. rewrite (flat_map_ext_elem f (fun _ => []) l Hf).
  clear Hf. induction l; simpl; auto.
Qed.

(** Only one element of a duplicate-free list contributes. *)
Lemma flat_map_single {A B : Type} (f : A -> list B) (l : list A) (p : A) :
  NoDup l -> p ∈ l ->
  (forall x, x ∈ l -> x <> p -> f x = []) ->
  flat_map f l = f p.
Proof.
  induction l as [|a l IH]; intros Hnd Hp Hf; [by apply elem_of_nil in Hp|].
  apply NoDup_cons in Hnd as [Ha Hnd]. simpl.
  apply elem_of_cons in Hp as [->|Hp].
  - rewrite flat_map_nil; [apply app_nil_r|].
    intros x Hx. apply Hf; [now apply list_elem_of_further|].
    now intros ->.
  - rewrite (Hf a), IH; try done.
    + intros x Hx. apply Hf. now apply list_elem_of_further.
    + apply list_elem_of_here.
    + now intros ->.
Qed.

Section PerTopic.

Context {P : Type}.
Implicit Type d : dscKeybusInterface P.

Lemma on_partitionTopic_partitionMsgs d (p i : nat) :
  on_topic (partitionTopic p) (partitionMsgs d i)
  = if Nat.eqb i p then armedMsgs d i ++ alarmMsgs d i else [].
Proof.
  unfold partitionMsgs, armedMsgs, alarmMsgs, fireMsgs.
  rewrite !on_topic_app.
  repeat case_match; unfold on_topic; cbn [List.filter msg_topic];
    rewrite ?partitionTopic_eqb, ?fire_partition_topic;
    repeat match goal with H : (_ =? _) = _ |- _ => rewrite H end;
    reflexivity.
Qed.

Lemma on_fireTopic_partitionMsgs d (p i : nat) :
  on_topic (fireTopic p) (partitionMsgs d i)
  = if Nat.eqb i p then fireMsgs d i else [].
Proof.
  unfold partitionMsgs, armedMsgs, alarmMsgs, fireMsgs.
  rewrite !on_topic_app.
  repeat case_match; unfold on_topic; cbn [List.filter msg_topic];
    rewrite ?fireTopic_eqb, ?partition_fire_topic;
    repeat match goal with H : (_ =? _) = _ |- _ => rewrite H end;
    reflexivity.
Qed.

Lemma on_zoneTopic_partitionMsgs d (z i : nat) :
  on_topic (zoneTopic z) (partitionMsgs d i) = [].
Proof.
  unfold partitionMsgs, armedMsgs, alarmMsgs, fireMsgs.
  rewrite !on_topic_app.
  repeat case_match; reflexivity.
Qed.

Lemma on_partitionTopic_zoneMsgs d (p z : nat) :
  on_topic (partitionTopic p) (zoneMsgs d z) = [].
Proof. unfold zoneMsgs. repeat case_match; reflexivity. Qed.

Lemma on_fireTopic_zoneMsgs d (p z : nat) :
  on_topic (fireTopic p) (zoneMsgs d z) = [].
Proof. unfold zoneMsgs. repeat case_match; reflexivity. Qed.

Lemma on_zoneTopic_zoneMsgs d (z z' : nat) :
  on_topic (zoneTopic z) (zoneMsgs d z')
  = if Nat.eqb z' z then zoneMsgs d z' else [].
Proof.
  unfold zoneMsgs.
  repeat case_match; unfold on_topic; cbn [List.filter msg_topic];
    rewrite ?zoneTopic_eqb;
    repeat match goal with H : (_ =? _) = _ |- _ => rewrite H end;
    reflexivity.
Qed.

End PerTopic.

(** ** One run of the translator *)

Section RunFacts.

Context {P : Type}.
Implicit Type d : dscKeybusInterface P.

Lemma seq_elem (p n : nat) : p < n -> p ∈ seq 0 n.
Proof. intros Hp. apply list_elem_of_In, in_seq. lia. Qed.

Lemma on_partitionTopic_run d (p : nat) :
  p < dscPartitions ->
  on_topic (partitionTopic p) (translatorMsgs d)
  = armedMsgs d p ++ alarmMsgs d p.
Proof.
  intros Hp. unfold translatorMsgs.
  rewrite on_topic_app, !on_topic_flat_map.
  rewrite (flat_map_single _ _ p);
    [ | apply NoDup_seq | now apply seq_elem | ].
  - rewrite on_partitionTopic_partitionMsgs, Nat.eqb_refl.
    replace (on_topic _ _) with (@nil Msg); [apply app_nil_r|].
    case_match; [|done]. rewrite on_topic_flat_map. symmetry.
    apply flat_map_nil. intros z _. apply on_partitionTopic_zoneMsgs.
  - intros i _ Hne. rewrite on_partitionTopic_partitionMsgs.
    now apply Nat.eqb_neq in Hne as ->.
Qed.

Lemma on_fireTopic_run d (p : nat) :
  p < dscPartitions ->
  on_topic (fireTopic p) (translatorMsgs d) = fireMsgs d p.
Proof.
  intros Hp. unfold translatorMsgs.
  rewrite on_topic_app, !on_topic_flat_map.
  rewrite (flat_map_single _ _ p);
    [ | apply NoDup_seq | now apply seq_elem | ].
  - rewrite on_fireTopic_partitionMsgs, Nat.eqb_refl.
    replace (on_topic _ _) with (@nil Msg); [apply app_nil_r|].
    case_match; [|done]. rewrite on_topic_flat_map. symmetry.
    apply flat_map_nil. intros z _. apply on_fireTopic_zoneMsgs.
  - intros i _ Hne. rewrite on_fireTopic_partitionMsgs.
    now apply Nat.eqb_neq in Hne as ->.
Qed.

Lemma on_zoneTopic_run d (z : nat) :
  1 <= z <= 64 ->
  on_topic (zoneTopic z) (translatorMsgs d)
  = if openZonesStatusChanged d then zoneMsgs d z else [].
Proof.
  intros Hz. unfold translatorMsgs.
  rewrite on_topic_app, on_topic_flat_map.
  rewrite flat_map_nil by (intros; apply on_zoneTopic_partitionMsgs).
  case_match; [|done]. rewrite app_nil_l.
  rewrite on_topic_flat_map, (flat_map_single _ _ z).
  - now rewrite on_zoneTopic_zoneMsgs, Nat.eqb_refl.
  - apply NoDup_seq.
  - apply list_elem_of_In, in_seq. lia.
  - intros z' _ Hne. rewrite on_zoneTopic_zoneMsgs.
    now apply Nat.eqb_neq in Hne as ->.
Qed.

Lemma clearZoneBit_frame {A : Type} (f : dscKeybusInterface P -> A) :
  (forall g v d, f (set_openZonesChanged g v d) = f d) ->
  forall g b d, f (clearZoneBit g b d) = f d.
Proof. intros Hf g b d. unfold clearZoneBit. now destruct (bitRead _ _). Qed.

Lemma flagsAfter_armedChanged idx gbs d (p : nat) :
  p ∈ idx -> rd (partitionsArmedChanged (flagsAfter idx gbs d)) p = false.
Proof.
  intros Hp. unfold flagsAfter. cbv zeta.
  destruct (openZonesStatusChanged (clearPartitions idx d)).
  - rewrite (clearZoneBits_frame partitionsArmedChanged)
      by now apply clearZoneBit_frame.
    cbn [partitionsArmedChanged set_openZonesStatusChanged].
    rewrite clearPartitions_armedChanged. now apply decide_True.
  - rewrite clearPartitions_armedChanged. now apply decide_True.
Qed.

Lemma flagsAfter_alarmChanged idx gbs d (p : nat) :
  p ∈ idx -> rd (partitionsAlarmChanged (flagsAfter idx gbs d)) p = false.
Proof.
  intros Hp. unfold flagsAfter. cbv zeta.
  destruct (openZonesStatusChanged (clearPartitions idx d)).
  - rewrite (clearZoneBits_frame partitionsAlarmChanged)
      by now apply clearZoneBit_frame.
    cbn [partitionsAlarmChanged set_openZonesStatusChanged].
    rewrite clearPartitions_alarmChanged. now apply decide_True.
  - rewrite clearPartitions_alarmChanged. now apply decide_True.
Qed.

Lemma flagsAfter_fireChanged idx gbs d (p : nat) :
  p ∈ idx -> rd (partitionsFireChanged (flagsAfter idx gbs d)) p = false.
Proof.
  intros Hp. unfold flagsAfter. cbv zeta.
  destruct (openZonesStatusChanged (clearPartitions idx d)).
  - rewrite (clearZoneBits_frame partitionsFireChanged)
      by now apply clearZoneBit_frame.
    cbn [partitionsFireChanged set_openZonesStatusChanged].
    rewrite clearPartitions_fireChanged. now apply decide_True.
  - rewrite clearPartitions_fireChanged. now apply decide_True.
Qed.

Lemma flagsAfter_openZonesStatusChanged idx gbs d :
  openZonesStatusChanged (flagsAfter idx gbs d) = false.
Proof.
  unfold flagsAfter. cbv zeta.
  destruct (openZonesStatusChanged (clearPartitions idx d)) eqn:E;
    [|exact E].
  now rewrite (clearZoneBits_frame openZonesStatusChanged)
    by now apply clearZoneBit_frame.
Qed.

Lemma flagsAfter_changed_bit idx gbs d (g b : nat) :
  b < 8 -> (g, b) ∈ gbs ->
  bitRead (rdZ (openZonesChanged (flagsAfter idx gbs d)) g) b
  = if openZonesStatusChanged d then false
    else bitRead (rdZ (openZonesChanged d) g) b.
Proof.
  intros Hb Hin. unfold flagsAfter. cbv zeta.
  rewrite (clearPartitions_frame openZonesStatusChanged)
    by (intros; reflexivity).
  destruct (openZonesStatusChanged d).
  - rewrite clearZoneBits_changed by done.
    rewrite bool_decide_eq_true_2 by done. apply andb_false_r.
  - now rewrite (clearPartitions_frame openZonesChanged)
      by (intros; reflexivity).
Qed.

Lemma translatorFlags_armedChanged d (p : nat) :
  p < dscPartitions -> rd (partitionsArmedChanged (translatorFlags d)) p = false.
Proof. intros Hp. apply flagsAfter_armedChanged, seq_elem, Hp. Qed.

Lemma translatorFlags_alarmChanged d (p : nat) :
  p < dscPartitions -> rd (partitionsAlarmChanged (translatorFlags d)) p = false.
Proof. intros Hp. apply flagsAfter_alarmChanged, seq_elem, Hp. Qed.

Lemma translatorFlags_fireChanged d (p : nat) :
  p < dscPartitions -> rd (partitionsFireChanged (translatorFlags d)) p = false.
Proof. intros Hp. apply flagsAfter_fireChanged, seq_elem, Hp. Qed.

Lemma translatorFlags_openZonesStatusChanged d :
  openZonesStatusChanged (translatorFlags d) = false.
Proof. apply flagsAfter_openZonesStatusChanged. Qed.

Lemma translatorFlags_zoneChanged d (z : nat) :
  1 <= z <= 64 ->
  zoneChanged (translatorFlags d) z
  = if openZonesStatusChanged d then false else zoneChanged d z.
Proof.
  intros Hz. apply flagsAfter_changed_bit.
  - apply Nat.mod_upper_bound. lia.
  - apply zoneBits_elem, Hz.
Qed.

(** A second run has nothing left to publish. *)
Lemma translatorMsgs_after_run d : translatorMsgs (translatorFlags d) = [].
Proof.
  unfold translatorMsgs.
  rewrite translatorFlags_openZonesStatusChanged, app_nil_r.
  apply flat_map_nil. intros p Hp%list_elem_of_In%in_seq.
  unfold partitionMsgs, armedMsgs, alarmMsgs, fireMsgs.
  rewrite translatorFlags_armedChanged, translatorFlags_alarmChanged,
    translatorFlags_fireChanged by lia.
  reflexivity.
Qed.

End RunFacts.

Lemma published_by_app {P M : Type} (f : World P M -> World P M)
    (w : World P M) (ms : list Msg) :
  published (trace (f w)) = published (trace w) ++ ms -> published_by f w = ms.
Proof. intros E. unfold published_by. rewrite E. apply drop_app_length. Qed.

Section Runs.

Context {P M : Type} {client : PubSubClient M}.
Implicit Type w : World P M.

Lemma published_by_statusTranslator w :
  published_by statusTranslator w = translatorMsgs (dsc w).
Proof. apply published_by_app, statusTranslator_published. Qed.

Lemma published_by_publishZones w :
  published_by publishZones w
  = if openZonesStatusChanged (dsc w)
    then flat_map (zoneMsgs (dsc w)) (seq 1 64) else [].
Proof. apply published_by_app, publishZones_published. Qed.

End Runs.

Example run_away_and_alarm :
  published_by (statusTranslator (client := Bench.offline_client))
    Bench.away_and_alarm
  = [mkMsg "dsc/Get/Partition1" "AA" true;
     mkMsg "dsc/Get/Partition1" "T" true].
Proof. vm_compute. reflexivity. Qed.

Example run_night_and_fire :
  published_by (statusTranslator (client := Bench.online_client))
    Bench.night_and_fire
  = [mkMsg "dsc/Get/Partition1" "NA" true; mkMsg "dsc/Get/Fire1" "0" false].
Proof. vm_compute. reflexivity. Qed.

Example run_zones_1_10 :
  published_by (statusTranslator (client := Bench.online_client))
    Bench.zones_1_10
  = [mkMsg "dsc/Get/Zone1" "1" true; mkMsg "dsc/Get/Zone10" "0" true].
Proof. vm_compute. reflexivity. Qed.

(** ** Status translator: the claims *)

Section TranslatorClaims.

Context {P M : Type} {client : PubSubClient M}.
Implicit Type w : World P M.

(** C2 (amended).  For a partition index [p] below [dscPartitions] whose
    armed-change flag is set, one run of the translator clears the flag and
    the messages it hands to the client for [Partition{p+1}] are: at most
    one armed-status message, namely the first match of the priority order
    (armedAway && noEntryDelay) "NA", armedAway "AA",
    (armedStay && noEntryDelay) "NA", armedStay "SA" when armed, none when
    armed with neither mode, and "D" when not armed; followed by the
    alarm message "T" when the alarm-change flag is set and the alarm is
    tripped.  All are retained. *)
Theorem C2_armed_status w (p : nat) :
  p < dscPartitions ->
  rd (partitionsArmedChanged (dsc w)) p = true ->
  rd (partitionsArmedChanged (dsc (statusTranslator w))) p = false /\
  on_topic (partitionTopic p) (published_by statusTranslator w)
  = (if rd (partitionsArmed (dsc w)) p
     then match armedPayload (rd (partitionsArmedAway (dsc w)) p)
                  (rd (partitionsArmedStay (dsc w)) p)
                  (rd (partitionsNoEntryDelay (dsc w)) p) with
          | Some payload => [mkMsg (partitionTopic p) payload true]
          | None => []
          end
     else [mkMsg (partitionTopic p) "D" true])
    ++ (if rd (partitionsAlarmChanged (dsc w)) p
           && rd (partitionsAlarm (dsc w)) p
        then [mkMsg (partitionTopic p) "T" true]
        else []).
Proof.
  intros Hp Hchanged. split.
  - rewrite statusTranslator_dsc. now apply translatorFlags_armedChanged.
  - rewrite published_by_statusTranslator, on_partitionTopic_run by done.
    unfold armedMsgs, alarmMsgs. now rewrite Hchanged.
Qed.

(** C3 (amended).  The zone scan runs only when [openZonesStatusChanged] is
    set, and clears it.  When it runs it visits zones 1..64 in ascending
    order, zone [z] being bit [(z-1) mod 8] of group [(z-1)/8]; a zone whose
    change bit is set gets exactly one retained message on [Zone{z}], "1"
    if its open bit is set and "0" otherwise, and its change bit is
    cleared; a zone whose change bit is clear gets none.  When the status
    flag is clear nothing is published for any zone and the change bits
    stay as they are. *)
Theorem C3_zone_scan w :
  published_by publishZones w
  = (if openZonesStatusChanged (dsc w)
     then flat_map (fun z =>
            if zoneChanged (dsc w) z
            then [mkMsg (zoneTopic z)
                    (if zoneOpen (dsc w) z then "1" else "0") true]
            else []) (seq 1 64)
     else [])
  /\ openZonesStatusChanged (dsc (statusTranslator w)) = false
  /\ forall z : nat, 1 <= z <= 64 ->
       on_topic (zoneTopic z) (published_by statusTranslator w)
       = (if openZonesStatusChanged (dsc w) && zoneChanged (dsc w) z
          then [mkMsg (zoneTopic z)
                  (if zoneOpen (dsc w) z then "1" else "0") true]
          else [])
       /\ zoneChanged (dsc (statusTranslator w)) z
          = (if openZonesStatusChanged (dsc w) then false
             else zoneChanged (dsc w) z).
Proof.
  split; [apply published_by_publishZones|].
  rewrite statusTranslator_dsc.
  split; [apply translatorFlags_openZonesStatusChanged|].
  intros z Hz. split.
  - rewrite published_by_statusTranslator, on_zoneTopic_run by done.
    unfold zoneMsgs. now destruct (openZonesStatusChanged (dsc w)).
  - now apply translatorFlags_zoneChanged.
Qed.

(** C4.  For every partition index [p] below [dscPartitions], one run of
    the translator hands the retained message "T" on [Partition{p+1}] to
    the client exactly once if [partitionsAlarmChanged[p]] is set and
    [partitionsAlarm[p]] is true, and not at all otherwise (in particular
    not when the alarm has gone back to false); the change flag is clear
    after the run in every case. *)
Theorem C4_alarm_tripped w (p : nat) :
  p < dscPartitions ->
  with_payload "T"
    (on_topic (partitionTopic p) (published_by statusTranslator w))
  = (if rd (partitionsAlarmChanged (dsc w)) p
        && rd (partitionsAlarm (dsc w)) p
     then [mkMsg (partitionTopic p) "T" true]
     else [])
  /\ rd (partitionsAlarmChanged (dsc (statusTranslator w))) p = false.
Proof.
  intros Hp. split.
  - rewrite published_by_statusTranslator, on_partitionTopic_run by done.
    unfold with_payload. rewrite List.filter_app.
    unfold armedMsgs, alarmMsgs, armedPayload.
    destruct (rd (partitionsArmedChanged (dsc w)) p),
             (rd (partitionsArmed (dsc w)) p),
             (rd (partitionsArmedAway (dsc w)) p),
             (rd (partitionsArmedStay (dsc w)) p),
             (rd (partitionsNoEntryDelay (dsc w)) p),
             (rd (partitionsAlarmChanged (dsc w)) p),
             (rd (partitionsAlarm (dsc w)) p); reflexivity.
  - rewrite statusTranslator_dsc. now apply translatorFlags_alarmChanged.
Qed.

(** C5.  For every partition index [p] below [dscPartitions] whose
    fire-change flag is set, one run of the translator hands exactly one
    message on [Fire{p+1}] to the client, with payload "1" if
    [partitionsFire[p]] is true and "0" otherwise, not retained, and the
    change flag is clear after the run. *)
Theorem C5_fire_status w (p : nat) :
  p < dscPartitions ->
  rd (partitionsFireChanged (dsc w)) p = true ->
  on_topic (fireTopic p) (published_by statusTranslator w)
  = [mkMsg (fireTopic p)
       (if rd (partitionsFire (dsc w)) p then "1" else "0") false]
  /\ rd (partitionsFireChanged (dsc (statusTranslator w))) p = false.
Proof.
  intros Hp Hchanged. split.
  - rewrite published_by_statusTranslator, on_fireTopic_run by done.
    unfold fireMsgs. now rewrite Hchanged.
  - rewrite statusTranslator_dsc. now apply translatorFlags_fireChanged.
Qed.

(** C6.  Running the translator again on the state it left hands no
    message to the client. *)
Theorem C6_second_run_silent w :
  published_by statusTranslator (statusTranslator w) = [].
Proof.
  rewrite published_by_statusTranslator, statusTranslator_dsc.
  apply translatorMsgs_after_run.
Qed.

End TranslatorClaims.

(** ** Publish results are ignored *)

Section PublishFailure.

Context {P M1 M2 : Type} {client1 : PubSubClient M1}
  {client2 : PubSubClient M2}.

(** C7.  Take the same panel state with any two broker clients, for
    instance one on which every publish fails and one on which every
    publish succeeds.  One run of the translator hands the same messages
    to both, once each, and leaves the same panel state: for a partition
    index [p] below [dscPartitions] the armed, alarm and fire change flags
    are clear, the zones status flag is clear, and the change bit of a
    zone [z] in 1..64 is clear if the scan ran.  A second run hands
    nothing to the client, whatever the first publish calls returned. *)
Theorem C7_flags_cleared_whatever_publish_returns
    (w1 : World P M1) (w2 : World P M2) (p z : nat) :
  dsc w1 = dsc w2 ->
  p < dscPartitions ->
  1 <= z <= 64 ->
  dsc (statusTranslator w1) = dsc (statusTranslator w2)
  /\ published_by statusTranslator w1 = published_by statusTranslator w2
  /\ rd (partitionsArmedChanged (dsc (statusTranslator w1))) p = false
  /\ rd (partitionsAlarmChanged (dsc (statusTranslator w1))) p = false
  /\ rd (partitionsFireChanged (dsc (statusTranslator w1))) p = false
  /\ openZonesStatusChanged (dsc (statusTranslator w1)) = false
  /\ (openZonesStatusChanged (dsc w1) = true ->
      zoneChanged (dsc (statusTranslator w1)) z = false)
  /\ published_by statusTranslator (statusTranslator w1) = [].
Proof.
  intros Hd Hp Hz.
  rewrite !published_by_statusTranslator, !statusTranslator_dsc, Hd.
  repeat split.
  - now apply translatorFlags_armedChanged.
  - now apply translatorFlags_alarmChanged.
  - now apply translatorFlags_fireChanged.
  - apply translatorFlags_openZonesStatusChanged.
  - intros Hgate. rewrite translatorFlags_zoneChanged by done.
    now rewrite Hgate.
  - apply translatorMsgs_after_run.
Qed.

End PublishFailure.

(** ** The access code prompt *)

Section AccessCodePromptFacts.

Context {P M : Type} {keybus : Keybus P} {client : PubSubClient M}.
Variable accessCode : string.
Implicit Type w : World P M.
Implicit Type d : dscKeybusInterface P.

Lemma flagsAfter_frame {A : Type} (f : dscKeybusInterface P -> A)
    idx gbs d :
  (forall i d', f (clearPartition i d') = f d') ->
  (forall v d', f (set_openZonesStatusChanged v d') = f d') ->
  (forall g v d', f (set_openZonesChanged g v d') = f d') ->
  f (flagsAfter idx gbs d) = f d.
Proof.
  intros Hpart Hstatus Hzone. unfold flagsAfter. cbv zeta.
  destruct (openZonesStatusChanged (clearPartitions idx d)).
  - rewrite (clearZoneBits_frame f) by now apply clearZoneBit_frame.
    rewrite Hstatus. now apply clearPartitions_frame.
  - now apply clearPartitions_frame.
Qed.

Lemma translatorFlags_accessCodePrompt d :
  accessCodePrompt (translatorFlags d) = accessCodePrompt d.
Proof. apply (flagsAfter_frame accessCodePrompt); reflexivity. Qed.

Lemma written_subscribe t w :
  written (trace (subscribe t w)) = written (trace w).
Proof.
  unfold subscribe, log. cbn [trace]. rewrite written_app. apply app_nil_r.
Qed.

Lemma dsc_subscribe t w : dsc (subscribe t w) = dsc w.
Proof. reflexivity. Qed.

Lemma processStatus_prompt w :
  accessCodePrompt (dsc w) && writeReady (dsc w) = true ->
  written (trace (processStatus accessCode w))
  = written (trace w) ++ [EvWriteStr accessCode]
  /\ dsc (processStatus accessCode w) = translatorFlags (answered accessCode (dsc w)).
Proof.
  intros Hboth. unfold processStatus. cbv zeta.
  rewrite written_subscribe, statusTranslator_written, dsc_subscribe,
    statusTranslator_dsc.
  destruct (bufferOverflow (dsc (upd_dsc (set_statusChanged false) w)));
    unfold Serial_print, log;
    cbn [dsc upd_dsc accessCodePrompt writeReady set_bufferOverflow
         set_statusChanged];
    rewrite Hboth; unfold dsc_write_str, log; cbn [trace dsc upd_dsc];
    rewrite !written_app; cbn [written List.filter is_write];
    rewrite ?app_nil_r; split; reflexivity.
Qed.

Lemma processStatus_no_prompt w :
  accessCodePrompt (dsc w) && writeReady (dsc w) = false ->
  written (trace (processStatus accessCode w)) = written (trace w)
  /\ dsc (processStatus accessCode w) = translatorFlags (unanswered (dsc w)).
Proof.
  intros Hboth. unfold processStatus. cbv zeta.
  rewrite written_subscribe, statusTranslator_written, dsc_subscribe,
    statusTranslator_dsc.
  destruct (bufferOverflow (dsc (upd_dsc (set_statusChanged false) w)));
    unfold Serial_print, log;
    cbn [dsc upd_dsc accessCodePrompt writeReady set_bufferOverflow
         set_statusChanged];
    rewrite Hboth; cbn [trace dsc upd_dsc];
    rewrite ?written_app; cbn [written List.filter is_write];
    rewrite ?app_nil_r; split; reflexivity.
Qed.

(** C9.  In a poll cycle whose bus step reports a complete command and a
    changed status: if [accessCodePrompt] and [writeReady] are both true,
    the sketch clears [accessCodePrompt], then calls [dsc.write] with the
    access code exactly once, and the translator runs on the state that
    call returns, so that [accessCodePrompt] is clear at the end of the
    cycle provided the library's [write] leaves it alone; if [writeReady]
    is false, nothing is written and [accessCodePrompt] keeps its value for
    a later cycle. *)
Theorem C9_access_code_prompt w d :
  handlePanel (dsc w) = (true, d) ->
  statusChanged d = true ->
  (accessCodePrompt d = true -> writeReady d = true ->
     written (trace (pollPanel accessCode w))
     = written (trace w) ++ [EvWriteStr accessCode]
     /\ (exists d', accessCodePrompt d' = false
           /\ dsc (pollPanel accessCode w)
              = translatorFlags (write_str accessCode d'))
     /\ ((forall d0, accessCodePrompt (write_str accessCode d0)
                     = accessCodePrompt d0) ->
         accessCodePrompt (dsc (pollPanel accessCode w)) = false))
  /\ (writeReady d = false ->
        written (trace (pollPanel accessCode w)) = written (trace w)
        /\ accessCodePrompt (dsc (pollPanel accessCode w))
           = accessCodePrompt d).
Proof.
  intros Hstep Hchanged. unfold pollPanel. cbv zeta.
  cbn [dsc upd_dsc]. rewrite Hstep. cbn [fst snd]. rewrite Hchanged.
  cbn [andb]. split.
  - intros Hprompt Hready.
    destruct (processStatus_prompt (upd_dsc (fun _ => d) w)) as [Hw Hd].
    { cbn [dsc upd_dsc]. now rewrite Hprompt, Hready. }
    split; [exact Hw|]. split.
    + eexists. split; [|exact Hd]. reflexivity.
    + intros Hframe. rewrite Hd, translatorFlags_accessCodePrompt.
      unfold answered. now rewrite Hframe.
  - intros Hready.
    destruct (processStatus_no_prompt (upd_dsc (fun _ => d) w)) as [Hw Hd].
    { cbn [dsc upd_dsc]. rewrite Hready. apply andb_false_r. }
    split; [exact Hw|].
    rewrite Hd, translatorFlags_accessCodePrompt. reflexivity.
Qed.

End AccessCodePromptFacts.

(** ** Command gate *)

Section CommandGateFacts.

Context {P M : Type} {keybus : Keybus P} {client : PubSubClient M}.
Variable accessCode : string.
Implicit Type w : World P M.

Lemma waitWriteReady_trace fuel w w1 :
  waitWriteReady fuel w = Some w1 ->
  trace w1 = trace w /\ mqtt w1 = mqtt w
  /\ mqttPreviousTime w1 = mqttPreviousTime w
  /\ writeReady (dsc w1) = true.
Proof.
  revert w. induction fuel as [|fuel IH]; intros w; simpl;
    destruct (writeReady (dsc w)) eqn:E; simpl; try discriminate.
  - now intros [= <-].
  - now intros [= <-].
  - intros Hwait. now apply IH in Hwait.
Qed.

Lemma waitWriteReady_more fuel fuel' w w1 :
  waitWriteReady fuel w = Some w1 -> fuel <= fuel' ->
  waitWriteReady fuel' w = Some w1.
Proof.
  revert fuel' w. induction fuel as [|fuel IH]; intros fuel' w; simpl;
    destruct (writeReady (dsc w)) eqn:E; simpl; try discriminate.
  - intros [= <-] _. destruct fuel'; simpl; now rewrite E.
  - intros [= <-] _. destruct fuel'; simpl; now rewrite E.
  - intros Hwait Hle. destruct fuel' as [|fuel']; [lia|]. simpl.
    rewrite E. simpl. apply IH; [done|lia].
Qed.

(** [mqttCallback] as the gate followed by the wait and the write. *)
Lemma mqttCallback_gate fuel payload w :
  mqttCallback accessCode fuel payload w
  = match commandGate accessCode (payload 0)
            (partitionArmed (dsc w)) (exitDelay (dsc w)) with
    | Some e =>
        (fun w1 => log e (upd_dsc (match e with
                                   | EvWriteKey k => write_key k
                                   | EvWriteStr s => write_str s
                                   | _ => id
                                   end) w1))
        <$> waitWriteReady fuel w
    | None => Some w
    end.
Proof.
  unfold mqttCallback, commandGate.
  generalize (payload 0). intros c.
  destruct (Ascii.eqb_spec c "S") as [->|_];
    [|destruct (Ascii.eqb_spec c "A") as [->|_];
      [|destruct (Ascii.eqb_spec c "N") as [->|_];
        [|destruct (Ascii.eqb_spec c "D") as [->|_]]]];
    destruct (partitionArmed (dsc w)), (exitDelay (dsc w)); reflexivity.
Qed.

Lemma after_steps_succ (n : nat) (d : dscKeybusInterface P) :
  after_steps (S n) d = after_steps n (handlePanel d).2.
Proof.
  unfold after_steps. exact (Nat.iter_succ_r n (fun d' => (handlePanel d').2) d).
Qed.

Lemma World_eta w :
  mkWorld (dsc w) (mqtt w) (mqttPreviousTime w) (trace w) = w.
Proof. now destruct w. Qed.

(** The wait in terms of the flag it polls: it returns within [fuel] bus
    steps exactly when [writeReady] first holds after some [n <= fuel] calls
    of [handlePanel]. *)
Lemma waitWriteReady_first_ready (fuel : nat) w w1 :
  waitWriteReady fuel w = Some w1
  <-> exists n, n <= fuel
        /\ writeReady (after_steps n (dsc w)) = true
        /\ (forall k, k < n -> writeReady (after_steps k (dsc w)) = false)
        /\ w1 = mkWorld (after_steps n (dsc w)) (mqtt w)
                  (mqttPreviousTime w) (trace w).
Proof.
  revert w. induction fuel as [|fuel IH]; intros w; simpl;
    destruct (writeReady (dsc w)) eqn:Hready; simpl.
  - split.
    + intros [= <-]. exists 0. repeat split; [lia|exact Hready|lia|].
      symmetry. apply World_eta.
    + intros (n & Hn & _ & _ & ->). replace n with 0 by lia.
      now rewrite <- (World_eta w) at 1.
  - split; [discriminate|].
    intros (n & Hn & Hr & _). replace n with 0 in Hr by lia.
    unfold after_steps in Hr. simpl in Hr. congruence.
  - split.
    + intros [= <-]. exists 0. repeat split; [lia|exact Hready|lia|].
      symmetry. apply World_eta.
    + intros (n & Hn & Hr & Hmin & ->). destruct n as [|n].
      * now rewrite <- (World_eta w) at 1.
      * specialize (Hmin 0 ltac:(lia)). unfold after_steps in Hmin.
        simpl in Hmin. congruence.
  - rewrite IH. cbn [dsc upd_dsc mqtt mqttPreviousTime trace]. split.
    + intros (n & Hn & Hr & Hmin & ->). exists (S n).
      rewrite !after_steps_succ. repeat split; [lia|exact Hr|].
      intros [|k] Hk; [exact Hready|].
      rewrite after_steps_succ. apply Hmin. lia.
    + intros (n & Hn & Hr & Hmin & ->). destruct n as [|n].
      * unfold after_steps in Hr. simpl in Hr. congruence.
      * exists n. rewrite after_steps_succ in Hr |- *.
        repeat split; [lia|exact Hr|].
        intros k Hk. rewrite <- after_steps_succ. apply Hmin. lia.
Qed.

Lemma commandGate_write c armed exit e :
  commandGate accessCode c armed exit = Some e ->
  written [e] = [e] /\ published [e] = [].
Proof.
  unfold commandGate. intros Hgate.
  repeat case_match; inversion Hgate; now split.
Qed.

(** C1 (amended).  [mqttCallback] writes to the panel if and only if the
    first payload byte is 'S', 'A' or 'N' while the partition is neither
    armed nor in exit delay (one keypad key 's', 'w', 'n' respectively), or
    'D' while armed or in exit delay (the access code), and [writeReady]
    becomes true after finitely many calls of [handlePanel].  In that case
    the callback makes exactly the least number [n] of calls after which
    [writeReady] is true, none if it is true already, and then writes
    exactly once, on the panel object these [n] calls leave.  While
    [writeReady] stays false nothing is written, and if it never becomes
    true the callback does not return.  In every other case it returns at
    once with the state unchanged: no write, and nothing handed to the
    broker.  The broker client is never called. *)
Theorem C1_command_gate (payload : nat -> ascii) w :
  let gate := commandGate accessCode (payload 0)
                (partitionArmed (dsc w)) (exitDelay (dsc w)) in
  (gate = None -> forall fuel, mqttCallback accessCode fuel payload w = Some w)
  /\ (forall e n,
        gate = Some e ->
        writeReady (after_steps n (dsc w)) = true ->
        (forall k, k < n -> writeReady (after_steps k (dsc w)) = false) ->
        forall fuel, n <= fuel ->
        exists w', mqttCallback accessCode fuel payload w = Some w'
                   /\ trace w' = trace w ++ [e]
                   /\ written (trace w') = written (trace w) ++ [e]
                   /\ published (trace w') = published (trace w)
                   /\ mqtt w' = mqtt w
                   /\ dsc w'
                      = match e with
                        | EvWriteKey k => write_key k (after_steps n (dsc w))
                        | EvWriteStr s => write_str s (after_steps n (dsc w))
                        | _ => after_steps n (dsc w)
                        end)
  /\ (forall e fuel,
        gate = Some e ->
        (forall k, k <= fuel -> writeReady (after_steps k (dsc w)) = false) ->
        mqttCallback accessCode fuel payload w = None)
  /\ (forall fuel w',
        mqttCallback accessCode fuel payload w = Some w' ->
        written (trace w')
        = written (trace w) ++ match gate with Some e => [e] | None => [] end
        /\ published (trace w') = published (trace w)
        /\ (gate <> None ->
            exists n, n <= fuel
              /\ writeReady (after_steps n (dsc w)) = true
              /\ forall k, k < n ->
                   writeReady (after_steps k (dsc w)) = false)).
Proof.
  cbv zeta. split; [|split; [|split]].
  - intros Hgate fuel. now rewrite mqttCallback_gate, Hgate.
  - intros e n Hgate Hready Hfirst fuel Hle.
    assert (Hwait : waitWriteReady fuel w
                    = Some (mkWorld (after_steps n (dsc w)) (mqtt w)
                              (mqttPreviousTime w) (trace w))).
    { apply waitWriteReady_first_ready. exists n. repeat split; assumption. }
    rewrite mqttCallback_gate, Hgate, Hwait.
    apply commandGate_write in Hgate as [Hw Hp].
    eexists. split; [reflexivity|].
    cbn [trace log upd_dsc mqtt dsc]. rewrite written_app, published_app.
    rewrite Hw, Hp, app_nil_r. repeat split. now destruct e.
  - intros e fuel Hgate Hnever. rewrite mqttCallback_gate, Hgate.
    destruct (waitWriteReady fuel w) as [w1|] eqn:Hwait; [|reflexivity].
    apply waitWriteReady_first_ready in Hwait as (n & Hn & Hready & _).
    rewrite Hnever in Hready by exact Hn. discriminate.
  - intros fuel w' Hcall. rewrite mqttCallback_gate in Hcall.
    destruct (commandGate _ _ _ _) as [e|] eqn:Hgate.
    + destruct (waitWriteReady fuel w) as [w1|] eqn:Hwait; [|done].
      pose proof (proj1 (waitWriteReady_first_ready _ _ _) Hwait)
        as (n & Hn & Hready & Hfirst & _).
      apply waitWriteReady_trace in Hwait as (Htr & _).
      apply commandGate_write in Hgate as [Hw Hp].
      inversion Hcall; subst w'. cbn [trace log upd_dsc].
      rewrite Htr, written_app, published_app.
      rewrite Hw, Hp, app_nil_r. repeat split.
      intros _. exists n. repeat split; assumption.
    + inversion Hcall. rewrite app_nil_r. repeat split. now intros [].
Qed.

End CommandGateFacts.

(** ** Connection supervisor *)

Section SupervisorFacts.

Context {P M : Type} {keybus : Keybus P} {client : PubSubClient M}.
Variable accessCode : string.
Implicit Type w : World P M.

Lemma attempts_subscribe t w :
  attempts (trace (subscribe t w)) = attempts (trace w).
Proof.
  unfold subscribe, log. cbn [trace]. rewrite attempts_app. apply app_nil_r.
Qed.

Lemma attempts_Serial_print t w :
  attempts (trace (Serial_print t w)) = attempts (trace w).
Proof.
  unfold Serial_print, log. cbn [trace]. rewrite attempts_app.
  apply app_nil_r.
Qed.

Lemma mqttConnect_attempts w :
  attempts (trace (mqttConnect w).2)
  = attempts (trace w)
    ++ [EvConnect mqttClientName (mqtt_connect mqttClientName (mqtt w)).1].
Proof.
  unfold mqttConnect. cbv zeta. cbn [snd].
  destruct (mqtt_connect mqttClientName (mqtt w)).1;
    rewrite ?attempts_subscribe, !attempts_Serial_print;
    unfold log; cbn [trace]; now rewrite attempts_app.
Qed.

Lemma mqttConnect_result w :
  (mqttConnect w).1 = mqtt_connected (mqtt (mqttConnect w).2).
Proof. reflexivity. Qed.

Lemma mqttConnect_time w :
  mqttPreviousTime (mqttConnect w).2 = mqttPreviousTime w.
Proof.
  unfold mqttConnect. cbv zeta. cbn [snd].
  now destruct (mqtt_connect mqttClientName (mqtt w)).1.
Qed.

(** C8 (amended).  While the client is disconnected, a call of
    [mqttHandle] compares [millis() - mqttPreviousTime], computed in
    32-bit unsigned arithmetic, with 5000.  If it is at most 5000 the call
    makes no connection attempt and changes nothing.  If it exceeds 5000
    the call makes exactly one attempt; when the client is still
    disconnected afterwards the timestamp is the time of this attempt,
    and when it is connected the timestamp is 0.  Hence after a failed
    attempt a later call makes no attempt until more than 5000 ms have
    passed since that attempt. *)
Theorem C8_reconnect_interval (fuel : nat) (clock : Z) w :
  mqtt_connected (mqtt w) = false ->
  ((elapsed clock w <= 5000)%Z ->
     mqttHandle accessCode fuel clock w = Some w)
  /\ ((5000 < elapsed clock w)%Z ->
      exists w', mqttHandle accessCode fuel clock w = Some w'
        /\ attempts (trace w')
           = attempts (trace w)
             ++ [EvConnect mqttClientName
                   (mqtt_connect mqttClientName (mqtt w)).1]
        /\ mqttPreviousTime w'
           = (if mqtt_connected (mqtt w') then 0%Z else millis clock)
        /\ (mqtt_connected (mqtt w') = false ->
            forall fuel' clock',
              (ulong_sub (millis clock') (millis clock) <= 5000)%Z ->
              mqttHandle accessCode fuel' clock' w' = Some w')).
Proof.
  intros Hoff. unfold elapsed. split.
  - intros Hle. unfold mqttHandle. rewrite Hoff. cbn [negb].
    now rewrite (proj2 (Z.ltb_ge _ _)) by lia.
  - intros Hgt. unfold mqttHandle at 1. rewrite Hoff. cbn [negb].
    rewrite (proj2 (Z.ltb_lt _ _)) by lia. cbv zeta.
    set (w1 := set_mqttPreviousTime (millis clock) w).
    rewrite mqttConnect_result.
    assert (Hatt : attempts (trace (mqttConnect w1).2)
                   = attempts (trace w)
                     ++ [EvConnect mqttClientName
                           (mqtt_connect mqttClientName (mqtt w)).1])
      by apply (mqttConnect_attempts w1).
    assert (Htime : mqttPreviousTime (mqttConnect w1).2 = millis clock)
      by apply (mqttConnect_time w1).
    destruct (mqtt_connected (mqtt (mqttConnect w1).2)) eqn:Hconn.
    + eexists. split; [reflexivity|].
      cbn [mqtt set_mqttPreviousTime Serial_print log trace
           mqttPreviousTime].
      unfold Serial_print, log. cbn [mqtt trace].
      rewrite Hconn, attempts_app, Hatt. cbn [attempts List.filter is_connect].
      rewrite app_nil_r.
      split; [reflexivity|split; [reflexivity|discriminate]].
    + eexists. split; [reflexivity|].
      unfold Serial_print, log. cbn [mqtt trace mqttPreviousTime].
      rewrite Hconn, attempts_app, Hatt, Htime.
      cbn [attempts List.filter is_connect].
      rewrite app_nil_r. split; [reflexivity|split; [reflexivity|]].
      intros _ fuel' clock' Hle'. unfold mqttHandle.
      cbn [mqtt mqttPreviousTime]. rewrite Hconn, ?Htime. cbn [negb].
      now rewrite (proj2 (Z.ltb_ge _ _)) by lia.
Qed.

End SupervisorFacts.

(** C10 (fails on the code).  The partition and fire topic arrays have
    [strlen(base) + 1] bytes, which the base topic and its terminator fill:
    for every partition 1..8 the one digit appended by [strcat] needs one
    byte more than the array has.  The zone topic array has
    [strlen(base) + 2] bytes: zones 1..9 fit, zones 10..64 need one byte
    more.  The digit arrays [partition[2]] and [zone[3]] are large enough. *)
Theorem C10_topic_buffers_too_small :
  forallb (fun p =>
      negb (TopicBuffer.fits mqttPartitionTopic (p + 1)
              (strlen mqttPartitionTopic + 1))
      && negb (TopicBuffer.fits mqttFireTopic (p + 1)
                 (strlen mqttFireTopic + 1))
      && bool_decide (TopicBuffer.partitionPublishTopic p = None)
      && bool_decide (TopicBuffer.firePublishTopic p = None)
      && bool_decide (TopicBuffer.itoa_into 2 (p + 1) = Some (itoa (p + 1))))
    (seq 0 dscPartitions) = true
  /\ forallb (fun z =>
        TopicBuffer.fits mqttZoneTopic z (strlen mqttZoneTopic + 2)
        && bool_decide (TopicBuffer.zonePublishTopic ((z - 1) / 8)
                          ((z - 1) mod 8) = Some (zoneTopic z)))
       (seq 1 9) = true
  /\ forallb (fun z =>
        negb (TopicBuffer.fits mqttZoneTopic z (strlen mqttZoneTopic + 2))
        && bool_decide (TopicBuffer.zonePublishTopic ((z - 1) / 8)
                          ((z - 1) mod 8) = None)
        && bool_decide (TopicBuffer.itoa_into 3 z = Some (itoa z)))
       (seq 10 55) = true
  /\ strlen mqttPartitionTopic + strlen (itoa 1) + 1 = 19
  /\ strlen mqttPartitionTopic + 1 = 18.
Proof. vm_compute. repeat split. Qed.

(** ** Counterexamples to the claims as stated *)

(** C2 fails as stated.  A partition that is armed with neither the away
    nor the stay flag gets no message at all although its armed-change flag
    is set; and a partition that is armed away while its alarm trips gets two
    messages on its topic in one run, "AA" and "T". *)
Lemma C2_counterexample :
  ~ C2_as_stated (client := Bench.offline_client) Bench.armed_without_mode 0
  /\ ~ C2_as_stated (client := Bench.offline_client) Bench.away_and_alarm 0.
Proof.
  split; intros H; destruct (H eq_refl) as (_ & payload & Hone & _);
    vm_compute in Hone; discriminate.
Qed.

(** C3 fails as stated.  With [openZonesStatusChanged] clear, a zone whose
    change bit is set is not published and its change bit stays set. *)
Lemma C3_counterexample :
  ~ C3_as_stated (client := Bench.online_client) Bench.zone1_ungated 1.
Proof. intros [Hone _]. vm_compute in Hone. discriminate. Qed.

Lemma stalled_never_ready (fuel : nat) :
  waitWriteReady (keybus := Bench.stalled_keybus) fuel Bench.idle = None.
Proof. induction fuel as [|fuel IH]; [reflexivity|exact IH]. Qed.

(** C1 fails as stated.  With a bus that never frees the write slot, a
    stay-arm command that passes the gate is never written: the callback
    does not return, whatever the number of bus steps allowed. *)
Lemma C1_counterexample :
  ~ C1_as_stated (keybus := Bench.stalled_keybus)
      "1234" (fun _ => "S"%char) Bench.idle.
Proof.
  intros H. destruct (H (EvWriteKey "s") eq_refl) as (fuel & w' & Hcall & _).
  rewrite mqttCallback_gate in Hcall. cbn [commandGate] in Hcall.
  change (commandGate "1234" "S" (partitionArmed (dsc Bench.idle))
            (exitDelay (dsc Bench.idle))) with (Some (EvWriteKey "s"))
    in Hcall.
  cbv beta iota in Hcall. rewrite stalled_never_ready in Hcall. discriminate.
Qed.

(** C8 fails as stated.  Disconnected, last attempt at 1000 ms, called at
    6000 ms: 5000 ms have elapsed and no attempt is made. *)
Lemma C8_counterexample :
  ~ C8_as_stated (keybus := Bench.stalled_keybus)
      (client := Bench.offline_client) "1234" 6000
      (mkWorld (dsc Bench.idle) tt 1000%Z []).
Proof.
  intros H. destruct (H eq_refl) as (fuel & w' & Hcall & Hlen).
  - vm_compute. discriminate.
  - vm_compute in Hcall. inversion Hcall; subst w'. discriminate.
Qed.

(** The timestamp is not always the time of the last attempt: a connect
    that fails in [setup] at 5900 ms leaves it at 0, and the first call of
    [mqttHandle] at 6001 ms, 101 ms later, makes an attempt. *)
Example attempt_soon_after_failed_setup :
  let w := setup_mqtt (client := Bench.offline_client) 5900 Bench.idle in
  mqttPreviousTime w = 0%Z
  /\ attempts (trace w) = [EvConnect mqttClientName false]
  /\ (attempts ∘ trace) <$>
       mqttHandle (keybus := Bench.stalled_keybus)
         (client := Bench.offline_client) "1234" 0 6001 w
     = Some [EvConnect mqttClientName false; EvConnect mqttClientName false].
Proof. vm_compute. repeat split. Qed.

(** ** The theorems at concrete inputs *)

(** Stay-arm command, write slot free after two bus steps. *)
Lemma C1_witness :
  exists w',
    mqttCallback (keybus := Bench.countdown_keybus) "1234" 5
      (fun _ => "S"%char) Bench.idle_ready_in_2 = Some w'
    /\ trace w' = [EvWriteKey "s"]
    /\ written (trace w') = [EvWriteKey "s"]
    /\ published (trace w') = []
    /\ mqtt w' = tt
    /\ dsc w'
       = after_steps (keybus := Bench.countdown_keybus) 2
           (dsc Bench.idle_ready_in_2).
Proof.
  destruct (C1_command_gate (keybus := Bench.countdown_keybus) "1234"
              (fun _ => "S"%char) Bench.idle_ready_in_2) as (_ & Hacc & _).
  apply (Hacc (EvWriteKey "s") 2);
    [reflexivity | reflexivity | | lia].
  intros [|[|k]] Hk; [reflexivity | reflexivity | lia].
Defined.

(** Partition 1 armed stay with no entry delay: "NA". *)
Lemma C2_witness :
  rd (partitionsArmedChanged
        (dsc (statusTranslator (client := Bench.online_client)
                Bench.night_and_fire))) 0 = false
  /\ on_topic (partitionTopic 0)
       (published_by (statusTranslator (client := Bench.online_client))
          Bench.night_and_fire)
     = [mkMsg "dsc/Get/Partition1" "NA" true].
Proof.
  destruct (C2_armed_status (client := Bench.online_client)
              Bench.night_and_fire 0) as [Hflag Hmsgs];
    [unfold dscPartitions; lia | reflexivity |].
  split; [exact Hflag | rewrite Hmsgs; reflexivity].
Defined.

(** Zone 10, closed and marked changed, with the status flag set. *)
Lemma C3_witness :
  on_topic (zoneTopic 10)
    (published_by (statusTranslator (client := Bench.online_client))
       Bench.zones_1_10)
  = [mkMsg "dsc/Get/Zone10" "0" true]
  /\ zoneChanged
       (dsc (statusTranslator (client := Bench.online_client)
               Bench.zones_1_10)) 10 = false.
Proof.
  destruct (C3_zone_scan (client := Bench.online_client) Bench.zones_1_10)
    as (_ & _ & Hzone).
  destruct (Hzone 10) as [Hmsgs Hbit]; [lia|].
  split; [rewrite Hmsgs | rewrite Hbit]; reflexivity.
Defined.

(** Partition 1 with a tripped alarm. *)
Lemma C4_witness :
  with_payload "T"
    (on_topic (partitionTopic 0)
       (published_by (statusTranslator (client := Bench.offline_client))
          Bench.away_and_alarm))
  = [mkMsg "dsc/Get/Partition1" "T" true]
  /\ rd (partitionsAlarmChanged
           (dsc (statusTranslator (client := Bench.offline_client)
                   Bench.away_and_alarm))) 0 = false.
Proof.
  destruct (C4_alarm_tripped (client := Bench.offline_client)
              Bench.away_and_alarm 0) as [Hmsgs Hflag];
    [unfold dscPartitions; lia |].
  split; [rewrite Hmsgs; reflexivity | exact Hflag].
Defined.

(** Partition 1 with its fire alarm restored. *)
Lemma C5_witness :
  on_topic (fireTopic 0)
    (published_by (statusTranslator (client := Bench.online_client))
       Bench.night_and_fire)
  = [mkMsg "dsc/Get/Fire1" "0" false]
  /\ rd (partitionsFireChanged
           (dsc (statusTranslator (client := Bench.online_client)
                   Bench.night_and_fire))) 0 = false.
Proof.
  destruct (C5_fire_status (client := Bench.online_client)
              Bench.night_and_fire 0) as [Hmsgs Hflag];
    [unfold dscPartitions; lia | reflexivity |].
  split; [rewrite Hmsgs; reflexivity | exact Hflag].
Defined.

(** The same panel state with a broker on which every publish fails and
    with one on which every publish succeeds. *)
Lemma C7_witness :
  dsc (statusTranslator (client := Bench.offline_client) Bench.away_and_alarm)
  = dsc (statusTranslator (client := Bench.online_client) Bench.away_and_alarm)
  /\ published_by (statusTranslator (client := Bench.offline_client))
       Bench.away_and_alarm
     = published_by (statusTranslator (client := Bench.online_client))
         Bench.away_and_alarm
  /\ rd (partitionsArmedChanged
           (dsc (statusTranslator (client := Bench.offline_client)
                   Bench.away_and_alarm))) 0 = false
  /\ published_by (statusTranslator (client := Bench.offline_client))
       (statusTranslator (client := Bench.offline_client)
          Bench.away_and_alarm) = [].
Proof.
  destruct (C7_flags_cleared_whatever_publish_returns
              (client1 := Bench.offline_client)
              (client2 := Bench.online_client)
              Bench.away_and_alarm Bench.away_and_alarm 0 1)
    as (Hd & Hm & Ha & _ & _ & _ & _ & Hsilent);
    [reflexivity | unfold dscPartitions; lia | lia |].
  exact (conj Hd (conj Hm (conj Ha Hsilent))).
Defined.

(** Disconnected, last attempt at 1000 ms, called at 6001 ms: one attempt,
    which fails, and the timestamp becomes 6001. *)
Lemma C8_witness :
  exists w',
    mqttHandle (keybus := Bench.stalled_keybus)
      (client := Bench.offline_client) "1234" 0 6001
      (mkWorld (dsc Bench.idle) tt 1000%Z []) = Some w'
    /\ attempts (trace w') = [EvConnect mqttClientName false]
    /\ mqttPreviousTime w' = 6001%Z.
Proof.
  destruct (C8_reconnect_interval (keybus := Bench.stalled_keybus)
              (client := Bench.offline_client) "1234" 0 6001
              (mkWorld (dsc Bench.idle) tt 1000%Z []))
    as [_ Hlate]; [reflexivity|].
  destruct Hlate as (w' & Hcall & Hatt & Htime & _);
    [vm_compute; reflexivity|].
  exists w'. split; [exact Hcall|]. split; [exact Hatt | exact Htime].
Defined.

(** The panel prompts for the access code and the write slot is free. *)
Lemma C9_witness :
  written (trace (pollPanel (keybus := Bench.countdown_keybus)
                    (client := Bench.online_client) "1234" Bench.prompting))
  = [EvWriteStr "1234"]
  /\ accessCodePrompt
       (dsc (pollPanel (keybus := Bench.countdown_keybus)
               (client := Bench.online_client) "1234" Bench.prompting))
     = false.
Proof.
  destruct (C9_access_code_prompt (keybus := Bench.countdown_keybus)
              (client := Bench.online_client) "1234" Bench.prompting
              (Bench.set_ready 0 (dsc Bench.prompting)))
    as [Hprompt _]; [reflexivity | reflexivity |].
  destruct Hprompt as (Hw & _ & Hclear); [reflexivity | reflexivity |].
  split; [exact Hw | apply Hclear; reflexivity].
Defined.

(** * Part III: further properties of the sketch *)

(** ** The translator only publishes *)

Lemma other_calls_app (t1 t2 : list Event) :
  other_calls (t1 ++ t2) = other_calls t1 ++ other_calls t2.
Proof. unfold other_calls. apply List.filter_app. Qed.

Lemma subscriptions_app (t1 t2 : list Event) :
  subscriptions (t1 ++ t2) = subscriptions t1 ++ subscriptions t2.
Proof. unfold subscriptions. apply omap_app. Qed.

Section TranslatorFrame.

Context {P M : Type} {client : PubSubClient M}.
Implicit Type w : World P M.

Local Ltac block_calls :=
  repeat case_match; simpl; rewrite ?other_calls_app; simpl;
  now rewrite ?app_nil_r.

Lemma publishPartition_other i w :
  other_calls (trace (publishPartition i w)) = other_calls (trace w).
Proof.
  unfold publishPartition.
  transitivity (other_calls (trace (publishAlarm i (publishArmed i w)))).
  { unfold publishFire. block_calls. }
  transitivity (other_calls (trace (publishArmed i w))).
  { unfold publishAlarm. block_calls. }
  unfold publishArmed. block_calls.
Qed.

Lemma publishZone_other g b w :
  other_calls (trace (publishZone g b w)) = other_calls (trace w).
Proof. unfold publishZone. block_calls. Qed.

Lemma publishPartition_time i w :
  mqttPreviousTime (publishPartition i w) = mqttPreviousTime w.
Proof.
  unfold publishPartition, publishFire, publishAlarm, publishArmed.
  repeat case_match; reflexivity.
Qed.

Lemma publishZone_time g b w :
  mqttPreviousTime (publishZone g b w) = mqttPreviousTime w.
Proof. unfold publishZone. repeat case_match; reflexivity. Qed.

Lemma statusTranslator_other w :
  other_calls (trace (statusTranslator w)) = other_calls (trace w).
Proof.
  unfold statusTranslator, publishZones, publishPartitions.
  transitivity
    (other_calls (trace (for_loop dscPartitions publishPartition w))).
  - generalize (for_loop dscPartitions publishPartition w). intros w1.
    destruct (openZonesStatusChanged _); [|reflexivity].
    rewrite zone_loops_flat.
    etransitivity;
      [apply (foldl_frame (fun acc gb => publishZone gb.1 gb.2 acc)
                (fun w' => other_calls (trace w')));
       intros; apply publishZone_other
      |reflexivity].
  - unfold for_loop.
    apply (foldl_frame (fun acc i => publishPartition i acc)
             (fun w' => other_calls (trace w'))).
    intros; apply publishPartition_other.
Qed.

Lemma statusTranslator_time w :
  mqttPreviousTime (statusTranslator w) = mqttPreviousTime w.
Proof.
  unfold statusTranslator, publishZones, publishPartitions.
  transitivity (mqttPreviousTime (for_loop dscPartitions publishPartition w)).
  - generalize (for_loop dscPartitions publishPartition w). intros w1.
    destruct (openZonesStatusChanged _); [|reflexivity].
    rewrite zone_loops_flat.
    etransitivity;
      [apply (foldl_frame (fun acc gb => publishZone gb.1 gb.2 acc)
                mqttPreviousTime);
       intros; apply publishZone_time
      |reflexivity].
  - unfold for_loop.
    apply (foldl_frame (fun acc i => publishPartition i acc)
             mqttPreviousTime).
    intros; apply publishPartition_time.
Qed.

(** X1.  One run of the status translator makes no call other than
    [mqtt.publish]: no panel write, no connect, no subscribe, no print.  It
    leaves the timestamp alone, and of the panel object it changes nothing but
    the change flags: the status members ([partitionsArmed],
    [partitionsArmedAway], [partitionsArmedStay], [partitionsNoEntryDelay],
    [partitionsAlarm], [partitionsFire], [openZones]), the scalar flags
    and the library's private state are as before. *)
Theorem X1_translator_only_publishes w :
  other_calls (trace (statusTranslator w)) = other_calls (trace w)
  /\ mqttPreviousTime (statusTranslator w) = mqttPreviousTime w
  /\ partitionsArmed (dsc (statusTranslator w)) = partitionsArmed (dsc w)
  /\ partitionsArmedAway (dsc (statusTranslator w))
     = partitionsArmedAway (dsc w)
  /\ partitionsArmedStay (dsc (statusTranslator w))
     = partitionsArmedStay (dsc w)
  /\ partitionsNoEntryDelay (dsc (statusTranslator w))
     = partitionsNoEntryDelay (dsc w)
  /\ partitionsAlarm (dsc (statusTranslator w)) = partitionsAlarm (dsc w)
  /\ partitionsFire (dsc (statusTranslator w)) = partitionsFire (dsc w)
  /\ openZones (dsc (statusTranslator w)) = openZones (dsc w)
  /\ statusChanged (dsc (statusTranslator w)) = statusChanged (dsc w)
  /\ bufferOverflow (dsc (statusTranslator w)) = bufferOverflow (dsc w)
  /\ accessCodePrompt (dsc (statusTranslator w)) = accessCodePrompt (dsc w)
  /\ writeReady (dsc (statusTranslator w)) = writeReady (dsc w)
  /\ partitionArmed (dsc (statusTranslator w)) = partitionArmed (dsc w)
  /\ exitDelay (dsc (statusTranslator w)) = exitDelay (dsc w)
  /\ priv (dsc (statusTranslator w)) = priv (dsc w).
Proof.
  split; [apply statusTranslator_other|].
  split; [apply statusTranslator_time|].
  rewrite statusTranslator_dsc. unfold translatorFlags.
  repeat split;
    match goal with
    | |- ?f (flagsAfter _ _ _) = _ =>
        apply (flagsAfter_frame f); intros; reflexivity
    end.
Qed.

(** X2.  The messages of one run, in the order they are handed to the
    client: partitions in ascending index order, for each partition its
    armed-status message, then its alarm message, then its fire message;
    after all partitions, and only if [openZonesStatusChanged] is set, the
    zones in ascending zone number. *)
Theorem X2_publish_order w :
  published_by statusTranslator w
  = flat_map (fun p => armedMsgs (dsc w) p ++ alarmMsgs (dsc w) p
                       ++ fireMsgs (dsc w) p) (seq 0 dscPartitions)
    ++ (if openZonesStatusChanged (dsc w)
        then flat_map (zoneMsgs (dsc w)) (seq 1 64) else []).
Proof. apply published_by_statusTranslator. Qed.

Lemma forallb_flat_map {A B : Type} (p : B -> bool) (f : A -> list B)
    (l : list A) :
  (forall x, x ∈ l -> forallb p (f x) = true) ->
  forallb p (flat_map f l) = true.
Proof.
  induction l as [|a l IH]; intros Hall; simpl; [done|].
  rewrite forallb_app, Hall by apply list_elem_of_here.
  apply IH. intros x Hx. apply Hall. now apply list_elem_of_further.
Qed.

Lemma length_flat_map_le {A B : Type} (f : A -> list B) (l : list A)
    (k : nat) :
  (forall x, x ∈ l -> length (f x) <= k) ->
  length (flat_map f l) <= k * length l.
Proof.
  induction l as [|a l IH]; intros Hall; simpl; [lia|].
  rewrite length_app.
  assert (length (f a) <= k) by apply Hall, list_elem_of_here.
  assert (length (flat_map f l) <= k * length l)
    by (apply IH; intros x Hx; apply Hall; now apply list_elem_of_further).
  lia.
Qed.

Lemma existsb_own_topic (f : nat -> string) (l : list nat) (i : nat) :
  i ∈ l -> existsb (fun p => String.eqb (f i) (f p)) l = true.
Proof.
  intros Hi. apply existsb_exists. exists i.
  split; [now apply list_elem_of_In | apply String.eqb_refl].
Qed.

Lemma in_table_partition (i : nat) (payload : string) :
  i < dscPartitions ->
  existsb (String.eqb payload) ["NA"; "AA"; "SA"; "D"; "T"] = true ->
  in_table (mkMsg (partitionTopic i) payload true) = true.
Proof.
  intros Hi Hpayload. unfold in_table. cbn [msg_topic msg_payload msg_retained].
  rewrite (existsb_own_topic partitionTopic) by now apply seq_elem.
  now rewrite Hpayload.
Qed.

Lemma in_table_fire (i : nat) (payload : string) :
  i < dscPartitions ->
  existsb (String.eqb payload) ["1"; "0"] = true ->
  in_table (mkMsg (fireTopic i) payload false) = true.
Proof.
  intros Hi Hpayload. unfold in_table. cbn [msg_topic msg_payload msg_retained].
  rewrite (existsb_own_topic fireTopic) by now apply seq_elem.
  rewrite Hpayload. cbn [negb andb]. rewrite andb_false_r. reflexivity.
Qed.

Lemma in_table_zone (z : nat) (open : bool) :
  1 <= z <= 64 ->
  in_table (mkMsg (zoneTopic z) (if open then "1" else "0") true) = true.
Proof.
  intros Hz. unfold in_table. cbn [msg_topic msg_payload msg_retained].
  rewrite (existsb_own_topic zoneTopic)
    by (apply list_elem_of_In, in_seq; lia).
  cbn [negb]. rewrite !andb_false_r.
  destruct open; cbn [existsb String.eqb Ascii.eqb Bool.eqb orb andb];
    rewrite ?andb_false_r; reflexivity.
Qed.

(** X3.  Every message of a run is a row of the encoding table: on a
    partition topic [Partition1..Partition8] the payload is "NA", "AA",
    "SA", "D" or "T" and the message is retained; on a fire topic
    [Fire1..Fire8] the payload is "1" or "0" and the message is not retained;
    on a zone topic [Zone1..Zone64] the payload is "1" or "0" and the message
    is retained.  No other topic or payload is ever published. *)
Theorem X3_messages_in_table w :
  forallb in_table (published_by statusTranslator w) = true.
Proof.
  rewrite published_by_statusTranslator. unfold translatorMsgs.
  rewrite forallb_app. apply andb_true_iff. split.
  - apply forallb_flat_map. intros i Hi%list_elem_of_In%in_seq.
    assert (Hlt : i < dscPartitions) by lia.
    unfold partitionMsgs, armedMsgs, alarmMsgs, fireMsgs, armedPayload.
    rewrite !forallb_app.
    repeat case_match; simplify_eq; cbn [forallb andb];
      rewrite ?in_table_partition, ?in_table_fire by done; reflexivity.
  - destruct (openZonesStatusChanged (dsc w)); [|reflexivity].
    apply forallb_flat_map. intros z Hz%list_elem_of_In%in_seq.
    unfold zoneMsgs. destruct (zoneChanged (dsc w) z); [|reflexivity].
    cbn [forallb]. rewrite in_table_zone by lia. reflexivity.
Qed.

(** X4.  One run hands at most three messages per partition and one per
    zone to the client: for a partition index [p] below [dscPartitions] at
    most two on [Partition{p+1}] (armed status and alarm) and at most one on
    [Fire{p+1}]; for a zone [z] in 1..64 at most one on [Zone{z}]; and at
    most [3 * dscPartitions + 64] in all. *)
Theorem X4_messages_bounded w (p z : nat) :
  p < dscPartitions ->
  1 <= z <= 64 ->
  length (on_topic (partitionTopic p) (published_by statusTranslator w)) <= 2
  /\ length (on_topic (fireTopic p) (published_by statusTranslator w)) <= 1
  /\ length (on_topic (zoneTopic z) (published_by statusTranslator w)) <= 1
  /\ length (published_by statusTranslator w) <= 3 * dscPartitions + 64.
Proof.
  intros Hp Hz. rewrite published_by_statusTranslator.
  rewrite on_partitionTopic_run, on_fireTopic_run, on_zoneTopic_run by done.
  split; [|split; [|split]].
  - unfold armedMsgs, alarmMsgs. rewrite length_app.
    repeat case_match; simpl; lia.
  - unfold fireMsgs. case_match; simpl; lia.
  - unfold zoneMsgs. repeat case_match; simpl; lia.
  - unfold translatorMsgs. rewrite length_app.
    assert (Hpart : length (flat_map (partitionMsgs (dsc w))
                              (seq 0 dscPartitions))
                    <= 3 * length (seq 0 dscPartitions)).
    { apply length_flat_map_le. intros i _.
      unfold partitionMsgs, armedMsgs, alarmMsgs, fireMsgs.
      rewrite !length_app. repeat case_match; simpl; lia. }
    assert (Hzone : length (flat_map (zoneMsgs (dsc w)) (seq 1 64))
                    <= 1 * length (seq 1 64)).
    { apply length_flat_map_le. intros z' _. unfold zoneMsgs.
      case_match; simpl; lia. }
    rewrite !length_seq in *.
    destruct (openZonesStatusChanged (dsc w)); [|cbn [length]]; lia.
Qed.

Lemma byte_zero (v : Z) :
  (0 <= v < 256)%Z -> (forall b, b < 8 -> bitRead v b = false) -> v = 0%Z.
Proof.
  intros Hv Hbits. apply Z.bits_inj'. intros n Hn. rewrite Z.bits_0.
  destruct (decide (n < 8)%Z) as [Hlow|Hhigh].
  - specialize (Hbits (Z.to_nat n) ltac:(lia)).
    now rewrite bitRead_testbit, Z2Nat.id in Hbits by lia.
  - destruct (decide (v = 0%Z)) as [->|Hne]; [apply Z.bits_0|].
    apply Z.bits_above_log2; [lia|].
    assert (Z.log2 v < 8)%Z by (apply Z.log2_lt_pow2; lia). lia.
Qed.

Lemma bitClear_range (v : Z) (b : nat) : (0 <= bitClear v b < 256)%Z.
Proof. unfold bitClear. apply Z.mod_pos_bound. lia. Qed.

Lemma rdZ_range (a : list Z) (g : nat) :
  Forall (fun v => (0 <= v < 256)%Z) a -> (0 <= rdZ a g < 256)%Z.
Proof.
  intros Hall. unfold rdZ. destruct (a !! g) as [v|] eqn:E; simpl; [|lia].
  exact (Forall_lookup_1 _ _ _ _ Hall E).
Qed.

Lemma clearZoneBits_range {Q : Type} (gbs : list (nat * nat))
    (d : dscKeybusInterface Q) :
  Forall (fun v => (0 <= v < 256)%Z) (openZonesChanged d) ->
  Forall (fun v => (0 <= v < 256)%Z) (openZonesChanged (clearZoneBits gbs d)).
Proof.
  unfold clearZoneBits. revert d.
  induction gbs as [|[g b] gbs IH]; intros d Hall; simpl; [done|].
  apply IH. unfold clearZoneBit.
  destruct (bitRead _ _); [|done]. simpl.
  apply Forall_insert; [done | apply bitClear_range].
Qed.

Lemma flagsAfter_range {Q : Type} idx gbs (d : dscKeybusInterface Q) :
  Forall (fun v => (0 <= v < 256)%Z) (openZonesChanged d) ->
  Forall (fun v => (0 <= v < 256)%Z) (openZonesChanged (flagsAfter idx gbs d)).
Proof.
  intros Hbytes. unfold flagsAfter. cbv zeta.
  destruct (openZonesStatusChanged (clearPartitions idx d)).
  - apply clearZoneBits_range.
    cbn [openZonesChanged set_openZonesStatusChanged].
    now rewrite (clearPartitions_frame openZonesChanged)
      by (intros; reflexivity).
  - now rewrite (clearPartitions_frame openZonesChanged)
      by (intros; reflexivity).
Qed.

Lemma flagsAfter_byte_zero {Q : Type} idx gbs (d : dscKeybusInterface Q)
    (g : nat) :
  Forall (fun v => (0 <= v < 256)%Z) (openZonesChanged d) ->
  openZonesStatusChanged d = true ->
  (forall b, b < 8 -> (g, b) ∈ gbs) ->
  rdZ (openZonesChanged (flagsAfter idx gbs d)) g = 0%Z.
Proof.
  intros Hbytes Hgate Hin. apply byte_zero.
  - apply rdZ_range, flagsAfter_range, Hbytes.
  - intros b Hb.
    rewrite flagsAfter_changed_bit by (exact Hb || exact (Hin b Hb)).
    now rewrite Hgate.
Qed.

(** X5.  If the zone change bytes are bytes (0..255) and
    [openZonesStatusChanged] is set, then after one run every one of the 8
    change bytes [openZonesChanged[0..7]] is zero; in any case they are
    still bytes. *)
Theorem X5_zone_change_bytes_zero w (g : nat) :
  Forall (fun v => (0 <= v < 256)%Z) (openZonesChanged (dsc w)) ->
  Forall (fun v => (0 <= v < 256)%Z)
    (openZonesChanged (dsc (statusTranslator w)))
  /\ (openZonesStatusChanged (dsc w) = true -> g < 8 ->
      rdZ (openZonesChanged (dsc (statusTranslator w))) g = 0%Z).
Proof.
  intros Hbytes. rewrite statusTranslator_dsc. unfold translatorFlags. split.
  - apply flagsAfter_range, Hbytes.
  - intros Hgate Hg. apply flagsAfter_byte_zero; [exact Hbytes|exact Hgate|].
    intros b Hb. apply list_elem_of_In, in_prod_iff. rewrite !in_seq. lia.
Qed.

End TranslatorFrame.

(** X6.  Every partition, fire state and zone has a topic of its own: the
    topic determines the index within its family, and topics of different
    families never coincide. *)
Theorem X6_topics_distinct (i j : nat) :
  (partitionTopic i = partitionTopic j -> i = j)
  /\ (fireTopic i = fireTopic j -> i = j)
  /\ (zoneTopic i = zoneTopic j -> i = j)
  /\ partitionTopic i <> fireTopic j
  /\ partitionTopic i <> zoneTopic j
  /\ fireTopic i <> zoneTopic j.
Proof.
  repeat split.
  - intros E. apply Nat.eqb_eq. rewrite <- partitionTopic_eqb.
    now apply String.eqb_eq.
  - intros E. apply Nat.eqb_eq. rewrite <- fireTopic_eqb.
    now apply String.eqb_eq.
  - intros E. apply Nat.eqb_eq. rewrite <- zoneTopic_eqb.
    now apply String.eqb_eq.
  - apply String.eqb_neq, partition_fire_topic.
  - apply String.eqb_neq, partition_zone_topic.
  - apply String.eqb_neq, fire_zone_topic.
Qed.

(** ** Connecting, polling and waiting *)

Lemma ulong_sub_millis (t t' : Z) :
  (0 <= t' - t < ulong_max)%Z ->
  ulong_sub (millis t') (millis t) = (t' - t)%Z.
Proof.
  intros Hrange. unfold ulong_sub, millis.
  rewrite <- Zminus_mod. now apply Z.mod_small.
Qed.

Lemma ulong_sub_zero (t : Z) : ulong_sub (millis t) 0 = millis t.
Proof.
  unfold ulong_sub, millis. rewrite Z.sub_0_r. apply Z.mod_mod.
  unfold ulong_max. lia.
Qed.

Section Connecting.

Context {P M : Type} {keybus : Keybus P} {client : PubSubClient M}.
Variable accessCode : string.
Implicit Type w : World P M.

Lemma mqttConnect_trace w :
  trace (mqttConnect w).2
  = trace w
    ++ (if (mqtt_connect mqttClientName (mqtt w)).1
        then [EvConnect mqttClientName true; EvPrint "MQTT connected: ";
              EvPrint mqttServer; EvSubscribe mqttSubscribeTopic]
        else [EvConnect mqttClientName false;
              EvPrint "MQTT connection failed: "; EvPrint mqttServer]).
Proof.
  unfold mqttConnect. cbv zeta. cbn [snd].
  destruct (mqtt_connect mqttClientName (mqtt w)).1 eqn:E;
    unfold subscribe, Serial_print, log; simpl;
    rewrite <- ?app_assoc; reflexivity.
Qed.

Lemma mqttConnect_dsc w : dsc (mqttConnect w).2 = dsc w.
Proof.
  unfold mqttConnect. cbv zeta. cbn [snd].
  now destruct (mqtt_connect mqttClientName (mqtt w)).1.
Qed.

(** X7.  [mqttConnect] makes exactly one connection attempt and subscribes
    to the command topic exactly when [mqtt.connect] returned true; what it
    returns is [mqtt.connected()] after the attempt.  It publishes nothing,
    writes nothing to the panel and leaves the panel object and the
    timestamp as they are. *)
Theorem X7_mqttConnect w :
  let ok := (mqtt_connect mqttClientName (mqtt w)).1 in
  (mqttConnect w).1 = mqtt_connected (mqtt (mqttConnect w).2)
  /\ attempts (trace (mqttConnect w).2)
     = attempts (trace w) ++ [EvConnect mqttClientName ok]
  /\ subscriptions (trace (mqttConnect w).2)
     = subscriptions (trace w) ++ (if ok then [mqttSubscribeTopic] else [])
  /\ published (trace (mqttConnect w).2) = published (trace w)
  /\ written (trace (mqttConnect w).2) = written (trace w)
  /\ dsc (mqttConnect w).2 = dsc w
  /\ mqttPreviousTime (mqttConnect w).2 = mqttPreviousTime w.
Proof.
  cbv zeta. split; [reflexivity|].
  rewrite mqttConnect_trace, mqttConnect_dsc, mqttConnect_time.
  rewrite attempts_app, subscriptions_app, published_app, written_app.
  destruct (mqtt_connect mqttClientName (mqtt w)).1;
    cbn; rewrite ?app_nil_r; repeat split.
Qed.

(** [mqttHandle] while the client is disconnected, as one equation. *)
Lemma mqttHandle_disconnected fuel clock w :
  mqtt_connected (mqtt w) = false ->
  mqttHandle accessCode fuel clock w
  = Some (if (5000 <? ulong_sub (millis clock) (mqttPreviousTime w))%Z
          then
            let r := mqttConnect (set_mqttPreviousTime (millis clock) w) in
            if r.1
            then set_mqttPreviousTime 0
                   (Serial_print
                      "MQTT disconnected, successfully reconnected." r.2)
            else Serial_print "MQTT disconnected, failed to reconnect." r.2
          else w).
Proof.
  intros Hoff. unfold mqttHandle. rewrite Hoff. cbn [negb]. cbv zeta.
  destruct (5000 <? _)%Z; [|reflexivity].
  now destruct (mqttConnect _).1.
Qed.

Lemma mqttHandle_late fuel clock w :
  mqtt_connected (mqtt w) = false ->
  (5000 < ulong_sub (millis clock) (mqttPreviousTime w))%Z ->
  exists w', mqttHandle accessCode fuel clock w = Some w'
    /\ attempts (trace w')
       = attempts (trace w)
         ++ [EvConnect mqttClientName (mqtt_connect mqttClientName (mqtt w)).1]
    /\ published (trace w') = published (trace w)
    /\ written (trace w') = written (trace w)
    /\ dsc w' = dsc w.
Proof.
  intros Hoff Hlate. rewrite mqttHandle_disconnected by done.
  rewrite (proj2 (Z.ltb_lt _ _)) by done. cbv zeta.
  set (w1 := set_mqttPreviousTime (millis clock) w).
  assert (Htr : trace (mqttConnect w1).2 = _) by apply (mqttConnect_trace w1).
  assert (Hd : dsc (mqttConnect w1).2 = dsc w) by apply (mqttConnect_dsc w1).
  cbn [mqtt set_mqttPreviousTime w1 trace] in Htr.
  eexists. split; [reflexivity|].
  destruct (mqttConnect w1).1; unfold Serial_print, log;
    cbn [trace dsc set_mqttPreviousTime];
    rewrite Htr, attempts_app, published_app, written_app,
      attempts_app, published_app, written_app;
    destruct (mqtt_connect mqttClientName (mqtt w)).1;
    cbn; rewrite ?app_nil_r; repeat split; exact Hd.
Qed.

Lemma mqttHandle_early fuel clock w :
  mqtt_connected (mqtt w) = false ->
  (ulong_sub (millis clock) (mqttPreviousTime w) <= 5000)%Z ->
  mqttHandle accessCode fuel clock w = Some w.
Proof.
  intros Hoff Hearly. rewrite mqttHandle_disconnected by done.
  now rewrite (proj2 (Z.ltb_ge _ _)) by done.
Qed.

(** X8.  [setup] stores [millis()] as the timestamp when the client is
    connected after its connection attempt and 0 when it is not.  Hence,
    after a failed attempt in [setup], [mqttHandle] makes no attempt while
    [millis()] is at most 5000 and makes one as soon as [millis()] exceeds
    5000, however short the time since [setup]. *)
Theorem X8_first_attempt_after_setup (fuel : nat) (clock clock' : Z) w :
  mqttPreviousTime (setup_mqtt clock w)
  = (if mqtt_connected (mqtt (setup_mqtt clock w))
     then millis clock else 0%Z)
  /\ attempts (trace (setup_mqtt clock w))
     = attempts (trace w)
       ++ [EvConnect mqttClientName (mqtt_connect mqttClientName (mqtt w)).1]
  /\ (mqtt_connected (mqtt (setup_mqtt clock w)) = false ->
      ((millis clock' <= 5000)%Z ->
         mqttHandle accessCode fuel clock' (setup_mqtt clock w)
         = Some (setup_mqtt clock w))
      /\ ((5000 < millis clock')%Z ->
          exists w', mqttHandle accessCode fuel clock' (setup_mqtt clock w)
                     = Some w'
            /\ length (attempts (trace w'))
               = S (length (attempts (trace (setup_mqtt clock w)))))).
Proof.
  assert (Htime : mqttPreviousTime (setup_mqtt clock w)
                  = (if mqtt_connected (mqtt (setup_mqtt clock w))
                     then millis clock else 0%Z)).
  { unfold setup_mqtt. cbv zeta. rewrite mqttConnect_result.
    now destruct (mqtt_connected (mqtt (mqttConnect w).2)) eqn:E;
      cbn [mqtt set_mqttPreviousTime mqttPreviousTime]; rewrite E. }
  split; [exact Htime|]. split.
  { unfold setup_mqtt. cbv zeta.
    destruct (mqttConnect w).1; cbn [trace set_mqttPreviousTime];
      apply mqttConnect_attempts. }
  intros Hoff. rewrite Hoff in Htime. split.
  - intros Hearly. apply mqttHandle_early; [exact Hoff|].
    now rewrite Htime, ulong_sub_zero.
  - intros Hlate.
    destruct (mqttHandle_late fuel clock' (setup_mqtt clock w) Hoff)
      as (w' & Hcall & Hatt & _).
    { now rewrite Htime, ulong_sub_zero. }
    exists w'. split; [exact Hcall|].
    rewrite Hatt, length_app. cbn [length]. lia.
Qed.

(** X9.  While the client is disconnected, [mqttHandle] always returns,
    whatever the bound on bus steps: it never runs the broker's event loop
    or the command callback, so it writes nothing to the panel, publishes
    nothing and leaves the panel object as it is. *)
Theorem X9_disconnected_handles_nothing (fuel : nat) (clock : Z) w :
  mqtt_connected (mqtt w) = false ->
  exists w', mqttHandle accessCode fuel clock w = Some w'
    /\ dsc w' = dsc w
    /\ written (trace w') = written (trace w)
    /\ published (trace w') = published (trace w).
Proof.
  intros Hoff.
  destruct (Z.ltb_spec 5000 (ulong_sub (millis clock) (mqttPreviousTime w)))
    as [Hlate|Hearly].
  - destruct (mqttHandle_late fuel clock w Hoff Hlate)
      as (w' & Hcall & _ & Hp & Hw & Hd).
    exists w'. repeat split; assumption.
  - exists w. rewrite mqttHandle_early by done. repeat split.
Qed.

(** X10.  The interval test survives the wrap-around of [millis()]: if the
    timestamp holds the time [t] of the last attempt and the call comes at
    [t'], less than 2^32 ms later, then a disconnected [mqttHandle] makes no
    attempt when [t' - t <= 5000] and makes one when [t' - t > 5000], also
    when [millis()] has wrapped between [t] and [t']. *)
Theorem X10_interval_across_wrap (fuel : nat) (t t' : Z) w :
  mqtt_connected (mqtt w) = false ->
  mqttPreviousTime w = millis t ->
  (0 <= t' - t < ulong_max)%Z ->
  ((t' - t <= 5000)%Z -> mqttHandle accessCode fuel t' w = Some w)
  /\ ((5000 < t' - t)%Z ->
      exists w', mqttHandle accessCode fuel t' w = Some w'
        /\ length (attempts (trace w')) = S (length (attempts (trace w)))).
Proof.
  intros Hoff Hprev Hrange. split.
  - intros Hearly. apply mqttHandle_early; [exact Hoff|].
    now rewrite Hprev, ulong_sub_millis.
  - intros Hlate.
    destruct (mqttHandle_late fuel t' w Hoff) as (w' & Hcall & Hatt & _).
    { now rewrite Hprev, ulong_sub_millis. }
    exists w'. split; [exact Hcall|].
    rewrite Hatt, length_app. cbn [length]. lia.
Qed.

Lemma commandGate_is_write c armed exit e :
  commandGate accessCode c armed exit = Some e -> is_write e = true.
Proof.
  unfold commandGate. intros Hgate.
  repeat case_match; inversion Hgate; reflexivity.
Qed.

(** What one call of [mqttCallback] that returns leaves behind. *)
Lemma mqttCallback_frame fuel payload w w' :
  mqttCallback accessCode fuel payload w = Some w' ->
  attempts (trace w') = attempts (trace w)
  /\ published (trace w') = published (trace w)
  /\ subscriptions (trace w') = subscriptions (trace w)
  /\ mqttPreviousTime w' = mqttPreviousTime w
  /\ mqtt w' = mqtt w
  /\ length (written (trace w')) <= S (length (written (trace w))).
Proof.
  rewrite mqttCallback_gate.
  destruct (commandGate _ _ _ _) as [e|] eqn:Hgate.
  - destruct (waitWriteReady fuel w) as [w1|] eqn:Hwait; [|done].
    apply waitWriteReady_trace in Hwait as (Htr & Hm & Ht & _).
    apply commandGate_is_write in Hgate.
    intros [= <-]. cbn [trace log upd_dsc mqtt mqttPreviousTime].
    rewrite Htr, attempts_app, published_app, subscriptions_app, written_app,
      length_app.
    destruct e; try discriminate; cbn; rewrite ?app_nil_r;
      repeat split; try assumption; lia.
  - intros [= <-]. repeat split. lia.
Qed.

Lemma callbacks_none fuel (payloads : list (nat -> ascii)) :
  foldl (fun acc payload => acc ≫= mqttCallback accessCode fuel payload)
    (None : option (World P M)) payloads = None.
Proof. induction payloads as [|p ps IH]; [reflexivity|exact IH]. Qed.

Lemma callbacks_frame fuel (payloads : list (nat -> ascii)) w w' :
  foldl (fun acc payload => acc ≫= mqttCallback accessCode fuel payload)
    (Some w) payloads = Some w' ->
  attempts (trace w') = attempts (trace w)
  /\ published (trace w') = published (trace w)
  /\ subscriptions (trace w') = subscriptions (trace w)
  /\ mqttPreviousTime w' = mqttPreviousTime w
  /\ mqtt w' = mqtt w
  /\ length (written (trace w'))
     <= length (written (trace w)) + length payloads.
Proof.
  revert w. induction payloads as [|p ps IH]; intros w; simpl.
  - intros [= <-]. repeat split. lia.
  - destruct (mqttCallback accessCode fuel p w) as [w1|] eqn:Hcall.
    + intros Hrest. apply IH in Hrest as (Ha & Hp & Hs & Ht & Hm & Hlen).
      apply mqttCallback_frame in Hcall
        as (Ha1 & Hp1 & Hs1 & Ht1 & Hm1 & Hlen1).
      repeat split; try congruence. lia.
    + now rewrite callbacks_none.
Qed.

(** X11.  While the client is connected, [mqttHandle] makes no connection
    attempt, no subscription and no publish, and leaves the timestamp
    alone; if it returns, it has written to the panel at most once per
    message the broker's event loop delivered.  When the event loop delivers
    nothing the call returns at once and only the client's own state has
    changed. *)
Theorem X11_connected_handle (fuel : nat) (clock : Z) w :
  mqtt_connected (mqtt w) = true ->
  (forall w', mqttHandle accessCode fuel clock w = Some w' ->
     attempts (trace w') = attempts (trace w)
     /\ subscriptions (trace w') = subscriptions (trace w)
     /\ published (trace w') = published (trace w)
     /\ mqttPreviousTime w' = mqttPreviousTime w
     /\ length (written (trace w'))
        <= length (written (trace w)) + length (mqtt_loop (mqtt w)).1)
  /\ ((mqtt_loop (mqtt w)).1 = [] ->
      mqttHandle accessCode fuel clock w
      = Some (set_mqtt (mqtt_loop (mqtt w)).2 w)).
Proof.
  intros Hon. unfold mqttHandle. rewrite Hon. cbn [negb].
  unfold mqtt_loop_callbacks. cbv zeta. split.
  - intros w' Hcall.
    apply callbacks_frame in Hcall as (Ha & Hp & Hs & Ht & _ & Hlen).
    repeat split; assumption.
  - intros Hnone. now rewrite Hnone.
Qed.

(** X12.  [loop] returns whenever the client is disconnected or the
    broker's event loop delivers no message, whatever the bound on bus
    steps: the only place where [loop] can stall is the wait for
    [writeReady] inside the command callback. *)
Theorem X12_loop_returns (fuel : nat) (clock : Z) w :
  mqtt_connected (mqtt w) = false \/ (mqtt_loop (mqtt w)).1 = [] ->
  exists w1, mqttHandle accessCode fuel clock w = Some w1
    /\ loop accessCode fuel clock w = Some (pollPanel accessCode w1).
Proof.
  intros Hquiet. unfold loop.
  destruct (mqtt_connected (mqtt w)) eqn:Hconn.
  - destruct Hquiet as [|Hnone]; [discriminate|].
    unfold mqttHandle, mqtt_loop_callbacks. cbv zeta.
    rewrite Hconn, Hnone. eexists. split; reflexivity.
  - destruct (Z.ltb_spec 5000
                (ulong_sub (millis clock) (mqttPreviousTime w)))
      as [Hlate|Hearly].
    + destruct (mqttHandle_late fuel clock w Hconn Hlate) as (w1 & Hcall & _).
      rewrite Hcall. eexists. split; reflexivity.
    + rewrite mqttHandle_early by done. eexists. split; reflexivity.
Qed.

Lemma translatorMsgs_status_flags (d : dscKeybusInterface P) :
  translatorMsgs (unanswered d) = translatorMsgs d.
Proof.
  unfold translatorMsgs, unanswered.
  cbn [openZonesStatusChanged set_bufferOverflow set_statusChanged].
  f_equal.
Qed.

Lemma trace_subscribe t w : trace (subscribe t w) = trace w ++ [EvSubscribe t].
Proof. reflexivity. Qed.

Lemma processStatus_published w :
  published (trace (processStatus accessCode w))
  = published (trace w)
    ++ translatorMsgs (if accessCodePrompt (dsc w) && writeReady (dsc w)
                       then answered accessCode (dsc w) else dsc w).
Proof.
  unfold processStatus. cbv zeta. rewrite trace_subscribe.
  rewrite published_app. cbn [published omap]. rewrite app_nil_r.
  rewrite statusTranslator_published.
  destruct (bufferOverflow (dsc (upd_dsc (set_statusChanged false) w)));
    unfold Serial_print, log;
    cbn [dsc upd_dsc accessCodePrompt writeReady set_bufferOverflow
         set_statusChanged];
    destruct (accessCodePrompt (dsc w) && writeReady (dsc w));
    unfold dsc_write_str, log; cbn [trace dsc upd_dsc];
    rewrite ?published_app; cbn [published omap]; rewrite ?app_nil_r;
    try reflexivity;
    f_equal; apply translatorMsgs_status_flags.
Qed.

(** X13.  A poll cycle publishes the pending changes of the panel state
    that the bus step returned, and only if that step completed a command
    and reported a changed status: otherwise nothing is published, even
    when change flags are set.  When the access code is written first, the
    changes published are those of the state the write returns. *)
Theorem X13_poll_cycle_messages w :
  published_by (pollPanel accessCode) w
  = (let r := handlePanel (dsc w) in
     if r.1 && statusChanged r.2
     then translatorMsgs (if accessCodePrompt r.2 && writeReady r.2
                          then answered accessCode r.2 else r.2)
     else []).
Proof.
  apply published_by_app. unfold pollPanel. cbv zeta.
  cbn [dsc upd_dsc].
  destruct ((handlePanel (dsc w)).1 && statusChanged (handlePanel (dsc w)).2).
  - now rewrite processStatus_published.
  - now rewrite app_nil_r.
Qed.

Lemma processStatus_other w :
  other_calls (trace (processStatus accessCode w))
  = other_calls (trace w)
    ++ (if bufferOverflow (dsc w)
        then [EvPrint "Keybus buffer overflow"] else [])
    ++ (if accessCodePrompt (dsc w) && writeReady (dsc w)
        then [EvWriteStr accessCode] else [])
    ++ [EvSubscribe mqttSubscribeTopic].
Proof.
  unfold processStatus. cbv zeta. rewrite trace_subscribe.
  rewrite other_calls_app, statusTranslator_other.
  cbn [dsc upd_dsc bufferOverflow set_statusChanged].
  destruct (bufferOverflow (dsc w));
    unfold Serial_print, log;
    cbn [dsc upd_dsc accessCodePrompt writeReady set_bufferOverflow
         set_statusChanged];
    destruct (accessCodePrompt (dsc w) && writeReady (dsc w));
    unfold dsc_write_str, log; cbn [trace dsc upd_dsc];
    rewrite ?other_calls_app; cbn; rewrite <- ?app_assoc;
    rewrite ?app_nil_r; reflexivity.
Qed.

(** X14.  A processed status cycle, apart from what it publishes, makes
    these calls in this order: the overflow notice if [bufferOverflow] was
    set, the access code write if [accessCodePrompt] and [writeReady] were
    both set, and a subscription to the command topic, which is always the
    last call of the cycle.  The state handed on has [statusChanged] and
    [bufferOverflow] clear. *)
Theorem X14_status_cycle_calls w :
  other_calls (trace (processStatus accessCode w))
  = other_calls (trace w)
    ++ (if bufferOverflow (dsc w)
        then [EvPrint "Keybus buffer overflow"] else [])
    ++ (if accessCodePrompt (dsc w) && writeReady (dsc w)
        then [EvWriteStr accessCode] else [])
    ++ [EvSubscribe mqttSubscribeTopic]
  /\ last (trace (processStatus accessCode w))
     = Some (EvSubscribe mqttSubscribeTopic)
  /\ exists d', statusChanged d' = false /\ bufferOverflow d' = false
       /\ dsc (processStatus accessCode w)
          = translatorFlags
              (if accessCodePrompt (dsc w) && writeReady (dsc w)
               then write_str accessCode (set_accessCodePrompt false d')
               else d').
Proof.
  split; [apply processStatus_other|]. split.
  - unfold processStatus. cbv zeta. rewrite trace_subscribe.
    apply last_snoc.
  - exists (unanswered (dsc w)). split; [reflexivity|]. split; [reflexivity|].
    destruct (accessCodePrompt (dsc w) && writeReady (dsc w)) eqn:Hboth.
    + apply (processStatus_prompt accessCode) in Hboth as [_ Hd]. exact Hd.
    + apply (processStatus_no_prompt accessCode) in Hboth as [_ Hd]. exact Hd.
Qed.

(** X15.  The wait for [writeReady] stops at the first bus step after which
    the flag is set: it returns within [fuel] steps exactly when some number
    [n <= fuel] of calls of [handlePanel] makes [writeReady] true and no
    smaller number does, and then the panel object is the one after these
    [n] calls, everything else being untouched.  In particular no bus step
    is made when the flag is already set. *)
Theorem X15_wait_stops_at_first_ready (fuel : nat) w w1 :
  waitWriteReady fuel w = Some w1
  <-> exists n, n <= fuel
        /\ writeReady (after_steps n (dsc w)) = true
        /\ (forall k, k < n -> writeReady (after_steps k (dsc w)) = false)
        /\ w1 = mkWorld (after_steps n (dsc w)) (mqtt w)
                  (mqttPreviousTime w) (trace w).
Proof.
  revert w. induction fuel as [|fuel IH]; intros w; simpl;
    destruct (writeReady (dsc w)) eqn:Hready; simpl.
  - split.
    + intros [= <-]. exists 0. repeat split; [lia|exact Hready|lia|].
      symmetry. apply World_eta.
    + intros (n & Hn & _ & _ & ->). replace n with 0 by lia.
      now rewrite <- (World_eta w) at 1.
  - split; [discriminate|].
    intros (n & Hn & Hr & _). replace n with 0 in Hr by lia.
    unfold after_steps in Hr. simpl in Hr. congruence.
  - split.
    + intros [= <-]. exists 0. repeat split; [lia|exact Hready|lia|].
      symmetry. apply World_eta.
    + intros (n & Hn & Hr & Hmin & ->). destruct n as [|n].
      * now rewrite <- (World_eta w) at 1.
      * specialize (Hmin 0 ltac:(lia)). unfold after_steps in Hmin.
        simpl in Hmin. congruence.
  - rewrite IH. cbn [dsc upd_dsc mqtt mqttPreviousTime trace]. split.
    + intros (n & Hn & Hr & Hmin & ->). exists (S n).
      rewrite !after_steps_succ. repeat split; [lia|exact Hr|].
      intros [|k] Hk; [exact Hready|].
      rewrite after_steps_succ. apply Hmin. lia.
    + intros (n & Hn & Hr & Hmin & ->). destruct n as [|n].
      * unfold after_steps in Hr. simpl in Hr. congruence.
      * exists n. rewrite after_steps_succ in Hr |- *.
        repeat split; [lia|exact Hr|].
        intros k Hk. rewrite <- after_steps_succ. apply Hmin. lia.
Qed.

End Connecting.

(** ** The further properties at concrete inputs *)

(** Partition 1 armed away with a tripped alarm: two messages on its
    partition topic, none on its fire topic or on zone 1. *)
Lemma X4_witness :
  length (on_topic (partitionTopic 0)
            (published_by (statusTranslator (client := Bench.online_client))
               Bench.away_and_alarm)) <= 2
  /\ length (on_topic (fireTopic 0)
               (published_by (statusTranslator (client := Bench.online_client))
                  Bench.away_and_alarm)) <= 1
  /\ length (on_topic (zoneTopic 1)
               (published_by (statusTranslator (client := Bench.online_client))
                  Bench.away_and_alarm)) <= 1
  /\ length (published_by (statusTranslator (client := Bench.online_client))
               Bench.away_and_alarm) <= 3 * dscPartitions + 64.
Proof.
  apply (X4_messages_bounded (client := Bench.online_client)
           Bench.away_and_alarm 0 1); [unfold dscPartitions; lia | lia].
Defined.

(** All 64 change bits set: after the run the fourth change byte is zero. *)
Lemma X5_witness :
  rdZ (openZonesChanged
         (dsc (statusTranslator (client := Bench.online_client)
                 Cases.all_zones_changed))) 3 = 0%Z.
Proof.
  destruct (X5_zone_change_bytes_zero (client := Bench.online_client)
              Cases.all_zones_changed 3) as [_ Hzero].
  - simpl. repeat (apply Forall_cons_2; [lia|]). apply Forall_nil_2.
  - apply Hzero; [reflexivity | lia].
Defined.

(** Partition 2 and zone 2 do not share a topic with anything else. *)
Lemma X6_witness :
  1 = 1 /\ partitionTopic 1 <> zoneTopic 1.
Proof.
  destruct (X6_topics_distinct 1 1) as (Hpart & _ & _ & _ & Hzone & _).
  split; [apply Hpart; reflexivity | exact Hzone].
Defined.

(** [setup] fails at 5900 ms; the first call at 6001 ms makes the second
    attempt. *)
Lemma X8_witness :
  exists w',
    mqttHandle (keybus := Bench.stalled_keybus)
      (client := Bench.offline_client) "1234" 0 6001
      (setup_mqtt (client := Bench.offline_client) 5900 Bench.idle) = Some w'
    /\ length (attempts (trace w')) = 2.
Proof.
  destruct (X8_first_attempt_after_setup (keybus := Bench.stalled_keybus)
              (client := Bench.offline_client) "1234" 0 5900 6001 Bench.idle)
    as (_ & _ & Hfailed).
  destruct Hfailed as [_ Hlate]; [reflexivity|].
  destruct Hlate as (w' & Hcall & Hlen); [vm_compute; reflexivity|].
  exists w'. split; [exact Hcall | exact Hlen].
Defined.

(** Disconnected, pending changes on the panel: nothing is touched. *)
Lemma X9_witness :
  exists w',
    mqttHandle (keybus := Bench.stalled_keybus)
      (client := Bench.offline_client) "1234" 0 7000 Bench.away_and_alarm
    = Some w'
    /\ dsc w' = dsc Bench.away_and_alarm
    /\ written (trace w') = []
    /\ published (trace w') = [].
Proof.
  apply (X9_disconnected_handles_nothing (keybus := Bench.stalled_keybus)
           (client := Bench.offline_client) "1234" 0 7000
           Bench.away_and_alarm).
  reflexivity.
Defined.

(** Last attempt 1000 ms before [millis()] wraps, call 5000 ms after the
    wrap: 6000 ms have passed and an attempt is made. *)
Lemma X10_witness :
  exists w',
    mqttHandle (keybus := Bench.stalled_keybus)
      (client := Bench.offline_client) "1234" 0 (2 ^ 32 + 5000)
      (mkWorld (dsc Bench.idle) tt (millis (2 ^ 32 - 1000)) []) = Some w'
    /\ length (attempts (trace w')) = 1.
Proof.
  destruct (X10_interval_across_wrap (keybus := Bench.stalled_keybus)
              (client := Bench.offline_client) "1234" 0
              (2 ^ 32 - 1000) (2 ^ 32 + 5000)
              (mkWorld (dsc Bench.idle) tt (millis (2 ^ 32 - 1000)) []))
    as [_ Hlate]; [reflexivity | reflexivity | unfold ulong_max; lia |].
  apply Hlate. lia.
Defined.

(** Two messages delivered, "S" and "x": at most two writes, no attempt. *)
Lemma X11_witness :
  exists w',
    mqttHandle (keybus := Bench.countdown_keybus)
      (client := Cases.delivering_client) "1234" 5 0 Cases.two_queued
    = Some w'
    /\ attempts (trace w') = []
    /\ length (written (trace w')) <= 0 + 2.
Proof.
  assert (Hcall : exists w',
             mqttHandle (keybus := Bench.countdown_keybus)
               (client := Cases.delivering_client) "1234" 5 0
               Cases.two_queued = Some w')
    by (eexists; vm_compute; reflexivity).
  destruct Hcall as [w' Hcall]. exists w'. split; [exact Hcall|].
  destruct (X11_connected_handle (keybus := Bench.countdown_keybus)
              (client := Cases.delivering_client) "1234" 5 0
              Cases.two_queued) as [Hframe _]; [reflexivity|].
  destruct (Hframe w' Hcall) as (Ha & _ & _ & _ & Hlen).
  split; [exact Ha | exact Hlen].
Defined.

(** Disconnected: [loop] returns even with no bus step allowed. *)
Lemma X12_witness :
  exists w1,
    mqttHandle (keybus := Bench.stalled_keybus)
      (client := Bench.offline_client) "1234" 0 7000 Bench.idle = Some w1
    /\ loop (keybus := Bench.stalled_keybus)
         (client := Bench.offline_client) "1234" 0 7000 Bench.idle
       = Some (pollPanel (keybus := Bench.stalled_keybus)
                 (client := Bench.offline_client) "1234" w1).
Proof.
  apply (X12_loop_returns (keybus := Bench.stalled_keybus)
           (client := Bench.offline_client) "1234" 0 7000 Bench.idle).
  left. reflexivity.
Defined.

(** The write slot is free after two bus steps: the wait makes exactly
    two. *)
Lemma X15_witness :
  waitWriteReady (keybus := Bench.countdown_keybus) (M := unit) 5
    Bench.idle_ready_in_2
  = Some (mkWorld
            (after_steps (keybus := Bench.countdown_keybus) 2
               (dsc Bench.idle_ready_in_2)) tt 0%Z []).
Proof.
  apply (proj2 (X15_wait_stops_at_first_ready
                  (keybus := Bench.countdown_keybus) 5
                  Bench.idle_ready_in_2 _)).
  exists 2. split; [lia|]. split; [reflexivity|]. split; [|reflexivity].
  intros [|[|k]] Hk; [reflexivity | reflexivity | lia].
Defined.
